(** * HRC all-in-one system: command fusion and process supervision

    A shallow embedding of [main9.py] (classes [CommandMatcher] and
    [HRCMainSystem]) and of the matching code of [hrc_gui_dashboard3.py]
    (class [HRCDashboard]), with the properties of the design document
    proved or refuted on it.

    Conventions of the embedding.
    - Python [str] values are [string]s of ASCII characters: [lower],
      [upper], [strip] and [isspace] below are Python's on such text.
      Text with other characters is outside the embedding.
    - A Python attribute that holds [None] or a [str] is an [option string].
    - [time.time()] readings are exact numbers of clock ticks ([Z]); the
      rounding of floating point subtraction is not modelled.  The
      reading is an argument of the operation that takes it.
    - [datetime] values are microseconds ([Z]), as [datetime] stores them.
    - [print] calls, lock operations, sleeps and calls to collaborators
      are recorded, in program order, in a trace of [event]s.
    - [exn] stands for the instances of Python's [Exception] class, the
      ones an [except Exception] clause handles, and the methods are
      embedded for collaborators that return or raise such an instance.
      Module [Wide] embeds the dispatch path again for collaborators
      that may also raise a [BaseException] outside [Exception]
      ([SystemExit], [KeyboardInterrupt]), which [except Exception] lets
      pass. *)

From Stdlib Require Import ZArith Ascii String List Bool Lia.
From Stdlib Require QArith Qminmax.
From stdpp Require Import base decidable option list strings gmap.

Local Open Scope string_scope.
Local Open Scope list_scope.
Local Open Scope Z_scope.

(** ** Python strings: [str.lower] and [str.strip] on ASCII text *)

Module PyStr.

(** [c.isupper()] for an ASCII character: 'A' .. 'Z'. *)
Definition is_upper (c : ascii) : bool :=
  let n := N_of_ascii c in ((65 <=? n) && (n <=? 90))%N.

(** ASCII characters for which [c.isspace()] holds: TAB, LF, VT, FF, CR,
    the separators FS, GS, RS, US, and the blank. *)
Definition is_space (c : ascii) : bool :=
  let n := N_of_ascii c in
  (((9 <=? n) && (n <=? 13)) || ((28 <=? n) && (n <=? 32)))%N.

Definition lower_char (c : ascii) : ascii :=
  if is_upper c then ascii_of_N (N_of_ascii c + 32) else c.

(** [s.lower()], for [s] of ASCII characters. *)
Fixpoint lower (s : string) : string :=
  match s with
  | EmptyString => EmptyString
  | String c s' => String (lower_char c) (lower s')
  end.

(** [s.lstrip()], for [s] of ASCII characters. *)
Fixpoint lstrip (s : string) : string :=
  match s with
  | EmptyString => EmptyString
  | String c s' => if is_space c then lstrip s' else s
  end.

(** [s.rstrip()] *)
Definition rstrip (s : string) : string :=
  String.rev (lstrip (String.rev s)).

(** [s.strip()] *)
Definition strip (s : string) : string := rstrip (lstrip s).

(** Truth value of a [str]: the empty string is false. *)
Definition truthy (s : string) : bool :=
  match s with EmptyString => false | String _ _ => true end.

End PyStr.

(** Truth value of an attribute that holds [None] or a [str]. *)
Definition truthy (v : option string) : bool :=
  match v with
  | None => false
  | Some s => PyStr.truthy s
  end.

(** ** Events and the program monad *)

(** Instances of [Exception], with their message.  The instances of
    [BaseException] outside [Exception] are [Wide.base_exn]. *)
Inductive exn : Type :=
| PyException (msg : string).

(** The lines the matcher, the supervisor and the dashboard print, with
    the values interpolated into them. *)
Inductive log_line : Type :=
| LogInvalid (command source : string)
| LogVoice (cleaned : option string)
| LogOcr (cleaned : option string)
| LogMatch (command : option string) (time_diff : Z)
| LogExecuted (command : option string)
| LogExecFailed (command : option string)
| LogArmExec (command : option string)
| LogSimulation (command : option string)
| LogExecError (e : exn)
| LogCleanVoice (command : option string)
| LogCleanOcr (command : option string)
| LogStarted (name : string) (pid : Z)
| LogStartFailed (name : string) (e : exn)
| LogNotFound (name script_path : string)
| LogDied (name : string)
| LogRestarted (name : string) (pid : Z)
| LogRestartFailed (name : string) (e : exn)
| LogGuiVoice (data : string)
| LogGuiOcr (data : string)
| LogGuiMatch (command : option string).

Inductive event : Type :=
| LockAcquire
| LockRelease
| Printed (l : log_line)
| Sleep (seconds : Z)
| ArmCall (command : option string)
| Spawn (args : list string).

(** How a call ends: it returns a value or an exception leaves it. *)
Inductive outcome (A : Type) : Type :=
| Returned (a : A)
| Raised (e : exn).
Arguments Returned {A} a.
Arguments Raised {A} e.

(** A method of an object with state [S]: from the state before the call
    to the way the call ends, the state after it and the events of the
    call.  State changes made before an exception are kept, as in Python. *)
Definition prog (S A : Type) : Type := S -> outcome A * S * list event.

Section Prog.
Context {S : Type}.

Definition ret {A} (a : A) : prog S A := fun s => (Returned a, s, []).

Definition bind {A B} (m : prog S A) (k : A -> prog S B) : prog S B :=
  fun s =>
    match m s with
    | (Returned a, s1, t1) =>
        match k a s1 with
        | (r, s2, t2) => (r, s2, t1 ++ t2)
        end
    | (Raised e, s1, t1) => (Raised e, s1, t1)
    end.

Definition get : prog S S := fun s => (Returned s, s, []).

Definition modify (f : S -> S) : prog S unit := fun s => (Returned tt, f s, []).

Definition emit (e : event) : prog S unit := fun s => (Returned tt, s, [e]).

Definition raise {A} (e : exn) : prog S A := fun s => (Raised e, s, []).

(** [try: m  except Exception as e: h e].  Every exception of this monad
    is an instance of [Exception], so a bare [except:] is written with it
    as well; [Wide.try_except] and [Wide.try_except_all] tell the two
    apart. *)
Definition try_except {A} (m : prog S A) (h : exn -> prog S A) : prog S A :=
  fun s =>
    match m s with
    | (Returned a, s1, t1) => (Returned a, s1, t1)
    | (Raised e, s1, t1) =>
        match h e s1 with
        | (r, s2, t2) => (r, s2, t1 ++ t2)
        end
    end.

(** [with self.lock: m]: the lock is released on every way out. *)
Definition with_lock {A} (m : prog S A) : prog S A :=
  fun s =>
    match m s with
    | (r, s1, t1) => (r, s1, LockAcquire :: t1 ++ [LockRelease])
    end.

(** The result of a call made to a collaborator, outside the object. *)
Definition extern {A} (e : event) (r : outcome A) : prog S A :=
  fun s => (r, s, [e]).

End Prog.

Notation "x <- m ;; k" := (bind m (fun x => k))
  (at level 100, m at next level, right associativity).
Notation "m ;;; k" := (bind m (fun _ => k))
  (at level 100, right associativity).

Definition print {S} (l : log_line) : prog S unit := emit (Printed l).

Definition state_of {S A} (r : outcome A * S * list event) : S := snd (fst r).
Definition trace_of {S A} (r : outcome A * S * list event) : list event := snd r.
Definition outcome_of {S A} (r : outcome A * S * list event) : outcome A := fst (fst r).

(** ** [class CommandMatcher] of [main9.py] *)

(** [self.stats], a dict with four fixed keys. *)
Record Stats : Type := mkStats {
  voice_commands : Z;
  ocr_commands : Z;
  matched_commands : Z;
  executed_commands : Z
}.

(** The keys of [self.stats]. *)
Inductive stat_key : Type :=
| K_voice_commands | K_ocr_commands | K_matched_commands | K_executed_commands.

Definition stat (k : stat_key) (st : Stats) : Z :=
  match k with
  | K_voice_commands => voice_commands st
  | K_ocr_commands => ocr_commands st
  | K_matched_commands => matched_commands st
  | K_executed_commands => executed_commands st
  end.

(** [self.stats[k] += 1] *)
Definition stat_incr (k : stat_key) (st : Stats) : Stats :=
  match k with
  | K_voice_commands =>
      mkStats (voice_commands st + 1) (ocr_commands st) (matched_commands st) (executed_commands st)
  | K_ocr_commands =>
      mkStats (voice_commands st) (ocr_commands st + 1) (matched_commands st) (executed_commands st)
  | K_matched_commands =>
      mkStats (voice_commands st) (ocr_commands st) (matched_commands st + 1) (executed_commands st)
  | K_executed_commands =>
      mkStats (voice_commands st) (ocr_commands st) (matched_commands st) (executed_commands st + 1)
  end.

(** The attributes of a [CommandMatcher] that change or are configured.
    [self.valid_commands] and [self.lock] are bound once in [__init__]:
    the first is the constant [valid_commands] below, the second shows
    in the trace. *)
Record CommandMatcher : Type := mkMatcher {
  voice_command : option string;
  voice_time : Z;
  ocr_command : option string;
  ocr_time : Z;
  timeout : Z;
  stats : Stats
}.

Definition valid_commands : list string :=
  ["one"; "two"; "three"; "four"; "five"; "home"].

(** [CommandMatcher.__init__(self, timeout=10)] *)
Definition init (timeout : Z) : CommandMatcher :=
  mkMatcher None 0 None 0 timeout (mkStats 0 0 0 0).

Definition default_timeout : Z := 10.

Definition set_voice (c : option string) (t : Z) (m : CommandMatcher) : CommandMatcher :=
  mkMatcher c t (ocr_command m) (ocr_time m) (timeout m) (stats m).

Definition set_ocr (c : option string) (t : Z) (m : CommandMatcher) : CommandMatcher :=
  mkMatcher (voice_command m) (voice_time m) c t (timeout m) (stats m).

Definition incr (k : stat_key) (m : CommandMatcher) : CommandMatcher :=
  mkMatcher (voice_command m) (voice_time m) (ocr_command m) (ocr_time m)
            (timeout m) (stat_incr k (stats m)).

(** The four assignments under [# Reset] in [_check_match]. *)
Definition reset (m : CommandMatcher) : CommandMatcher :=
  mkMatcher None 0 None 0 (timeout m) (stats m).

(** The dict [mappings] of [_clean_command]. *)
Definition mappings : gmap string string :=
  list_to_map
    [("1", "one"); ("i", "one"); ("l", "one");
     ("2", "two"); ("to", "two"); ("too", "two");
     ("3", "three"); ("tree", "three");
     ("4", "four"); ("for", "four");
     ("5", "five"); ("s", "five");
     ("0", "home"); ("zero", "home"); ("o", "home")].

(** [CommandMatcher._clean_command(self, command)]; it reads nothing of
    [self]. *)
Definition _clean_command (command : string) : option string :=
  if negb (PyStr.truthy command) then None
  else
    let cleaned := PyStr.strip (PyStr.lower command) in
    Some (default cleaned (mappings !! cleaned)).

(** [cleaned in self.valid_commands], for a [cleaned] that may be [None]. *)
Definition is_valid (cleaned : option string) : bool :=
  match cleaned with
  | None => false
  | Some c => bool_decide (c ∈ valid_commands)
  end.

(** The guard of [add_command]:
    [not cleaned or cleaned not in self.valid_commands]. *)
Definition rejected (cleaned : option string) : bool :=
  negb (truthy cleaned) || negb (is_valid cleaned).

(** The arm controller module [tapping_1808], outside this program:
    whether its import succeeded, and how a call of
    [process_voice_command] ends: it returns, or it raises an instance of
    [Exception].  [Wide.ArmDriver] is an arm controller that may raise
    any [BaseException]. *)
Record ArmDriver : Type := mkArm {
  ARM_AVAILABLE : bool;
  process_voice_command : option string -> outcome unit
}.

Section Matcher.
Variable arm : ArmDriver.

(** [CommandMatcher._execute_command(self, command)] *)
Definition _execute_command (command : option string) : prog CommandMatcher bool :=
  try_except
    (if ARM_AVAILABLE arm then
       print (LogArmExec command) ;;;
       extern (ArmCall command) (process_voice_command arm command) ;;;
       ret true
     else
       print (LogSimulation command) ;;;
       emit (Sleep 2) ;;;
       ret true)
    (fun e =>
       print (LogExecError e) ;;;
       ret false).

(** [CommandMatcher._check_match(self)]; the attributes of [self] are
    read again after each change of the state. *)
Definition _check_match : prog CommandMatcher unit :=
  self <- get ;;
  if negb (truthy (voice_command self)) || negb (truthy (ocr_command self)) then
    ret tt
  else
    let time_diff := Z.abs (voice_time self - ocr_time self) in
    if bool_decide (voice_command self = ocr_command self)
       && (time_diff <=? timeout self) then
      print (LogMatch (voice_command self) time_diff) ;;;
      modify (incr K_matched_commands) ;;;
      self <- get ;;
      success <- _execute_command (voice_command self) ;;
      (if success : bool then
         modify (incr K_executed_commands) ;;;
         self <- get ;;
         print (LogExecuted (voice_command self))
       else
         self <- get ;;
         print (LogExecFailed (voice_command self))) ;;;
      modify reset
    else
      ret tt.

(** [CommandMatcher.add_command(self, command, source)]; [current_time]
    is what [time.time()] returns in this call. *)
Definition add_command (command source : string) (current_time : Z)
  : prog CommandMatcher unit :=
  with_lock
    (let cleaned := _clean_command command in
     if rejected cleaned then
       print (LogInvalid command source)
     else
       (if bool_decide (source = "VOICE") then
          modify (set_voice cleaned current_time) ;;;
          modify (incr K_voice_commands) ;;;
          print (LogVoice cleaned)
        else if bool_decide (source = "OCR") then
          modify (set_ocr cleaned current_time) ;;;
          modify (incr K_ocr_commands) ;;;
          print (LogOcr cleaned)
        else
          ret tt) ;;;
       _check_match).

End Matcher.

(** Truth value of a number: zero is false. *)
Definition nonzero (t : Z) : bool := negb (t =? 0).

(** [CommandMatcher.cleanup_old_commands(self)]; [current_time] is what
    [time.time()] returns in this call. *)
Definition cleanup_old_commands (current_time : Z) : prog CommandMatcher unit :=
  with_lock
    (self <- get ;;
     (if nonzero (voice_time self) && (timeout self <? current_time - voice_time self) then
        print (LogCleanVoice (voice_command self)) ;;;
        modify (set_voice None 0)
      else
        ret tt) ;;;
     self <- get ;;
     (if nonzero (ocr_time self) && (timeout self <? current_time - ocr_time self) then
        print (LogCleanOcr (ocr_command self)) ;;;
        modify (set_ocr None 0)
      else
        ret tt)).

(** [CommandMatcher.get_stats(self)] *)
Definition get_stats : prog CommandMatcher Stats :=
  self <- get ;; ret (stats self).

(** The match rule of the design document, in its words: both slots are
    populated, their commands are equal, and the two timestamps differ by
    at most the timeout window. *)
Definition match_rule (m : CommandMatcher) : bool :=
  truthy (voice_command m) && truthy (ocr_command m)
  && bool_decide (voice_command m = ocr_command m)
  && (Z.abs (voice_time m - ocr_time m) <=? timeout m).

(** A slot holds a command exactly when its timestamp is not the initial
    zero. *)
Definition slot_inv (m : CommandMatcher) : Prop :=
  (voice_command m <> None <-> voice_time m <> 0)
  /\ (ocr_command m <> None <-> ocr_time m <> 0).

(** *** Reading a trace: what runs while the lock is held *)

(** The slow actions of a dispatch: the call into the arm controller, or
    the sleep that stands for it in simulation mode. *)
Definition is_dispatch (e : event) : bool :=
  match e with
  | ArmCall _ | Sleep _ => true
  | _ => false
  end.

(** The dispatch actions of a trace that run with the lock held
    ([inside = true]) or with the lock free ([inside = false]); [held]
    tells whether the lock is held where the trace starts. *)
Fixpoint dispatches (inside held : bool) (t : list event) : list event :=
  match t with
  | [] => []
  | LockAcquire :: t' => dispatches inside true t'
  | LockRelease :: t' => dispatches inside false t'
  | e :: t' =>
      if is_dispatch e && Bool.eqb held inside
      then e :: dispatches inside held t'
      else dispatches inside held t'
  end.

Definition dispatched_under_lock (t : list event) : list event :=
  dispatches true false t.

Definition dispatched_outside_lock (t : list event) : list event :=
  dispatches false false t.

(** ** [class HRCMainSystem] of [main9.py]: process supervision *)

Definition VOICE_SCRIPT : string := "voice4.py".
Definition OCR_SCRIPT : string := "ocr4.py".
Definition GUI_SCRIPT : string := "hrc_gui_dashboard3.py".

(** A [subprocess.Popen] object, known by its [pid]. *)
Record Popen : Type := mkPopen { pid : Z }.

(** The operating system at one moment, as the supervisor sees it. *)
Record OS : Type := mkOS {
  sys_executable : string;
  (** [os.path.exists(path)] *)
  path_exists : string -> bool;
  (** [subprocess.Popen(args, ...)]: a new handle, or an exception *)
  popen : list string -> outcome Popen;
  (** [process.poll()]: [None] while the process runs, else its return code *)
  poll : Popen -> option Z
}.

Record HRCMainSystem : Type := mkSystem {
  processes : gmap string Popen;
  command_matcher : CommandMatcher;
  running : bool
}.

(** [self.processes[name] = process] *)
Definition set_process (name : string) (process : Popen) (sys : HRCMainSystem)
  : HRCMainSystem :=
  mkSystem (<[name := process]> (processes sys)) (command_matcher sys) (running sys).

Definition set_running (b : bool) (sys : HRCMainSystem) : HRCMainSystem :=
  mkSystem (processes sys) (command_matcher sys) b.

(** [HRCMainSystem.__init__(self)] *)
Definition init_system : HRCMainSystem := mkSystem ∅ (init 15) false.

(** [for x in l: body x] *)
Fixpoint for_each {S A} (l : list A) (body : A -> prog S unit) : prog S unit :=
  match l with
  | [] => ret tt
  | x :: l' => body x ;;; for_each l' body
  end.

(** The dict [scripts] of [start_everything], in insertion order. *)
Definition start_scripts : list (string * string) :=
  [("VOICE", VOICE_SCRIPT); ("OCR", OCR_SCRIPT); ("GUI", GUI_SCRIPT)].

(** The dict [scripts] of [monitor_and_restart], in insertion order. *)
Definition restart_scripts : list (string * string) :=
  [("VOICE", VOICE_SCRIPT); ("OCR", OCR_SCRIPT); ("GUI", GUI_SCRIPT)].

Section Supervisor.
Variable os : OS.

(** The body of the loop of [start_everything] over [scripts]. *)
Definition start_process (name script_path : string) : prog HRCMainSystem unit :=
  if path_exists os script_path then
    try_except
      (process <- extern (Spawn [sys_executable os; script_path])
                         (popen os [sys_executable os; script_path]) ;;
       modify (set_process name process) ;;;
       print (LogStarted name (pid process)))
      (fun e => print (LogStartFailed name e))
  else
    print (LogNotFound name script_path).

(** [HRCMainSystem.start_everything(self)]: the processes are started
    and [self.running] is set.  The arm initialisation, the banner and
    the start of the monitoring, cleanup and statistics threads are
    left out. *)
Definition start_everything : prog HRCMainSystem unit :=
  for_each start_scripts (fun '(name, script_path) => start_process name script_path) ;;;
  modify (set_running true).

(** The body of the loop of [monitor_and_restart] over [scripts]. *)
Definition check_process (name script_path : string) : prog HRCMainSystem unit :=
  self <- get ;;
  match processes self !! name with
  | Some process =>
      match poll os process with
      | Some _ =>
          print (LogDied name) ;;;
          try_except
            (new_process <- extern (Spawn [sys_executable os; script_path])
                                   (popen os [sys_executable os; script_path]) ;;
             modify (set_process name new_process) ;;;
             print (LogRestarted name (pid new_process)))
            (fun e => print (LogRestartFailed name e))
      | None => ret tt
      end
  | None => ret tt
  end.

(** One turn of the [while self.running] loop of [monitor_and_restart]. *)
Definition poll_pass : prog HRCMainSystem unit :=
  emit (Sleep 3) ;;;
  for_each restart_scripts (fun '(name, script_path) => check_process name script_path).

End Supervisor.

(** [HRCMainSystem.monitor_and_restart(self)]: the loop runs while
    [self.running] holds; each turn meets the operating system in its
    state of that moment, and the list of these states bounds the number
    of turns looked at. *)
Fixpoint monitor_and_restart (oss : list OS) : prog HRCMainSystem unit :=
  match oss with
  | [] => ret tt
  | os :: oss' =>
      self <- get ;;
      if running self then poll_pass os ;;; monitor_and_restart oss'
      else ret tt
  end.

(** The integer counters an [HRCMainSystem] holds: those of its matcher.
    The process registry maps a name to a handle and nothing else. *)
Definition system_counter (k : stat_key) (sys : HRCMainSystem) : Z :=
  stat k (stats (command_matcher sys)).

(** ** [class HRCDashboard] of [hrc_gui_dashboard3.py]: command matching *)

Module Dashboard.

(** The attributes the matching code uses.  The history lists hold
    formatted lines; an entry here is the pair of the time and of the
    value formatted into the line. *)
Record HRCDashboard : Type := mkDashboard {
  voice_commands : list (Z * string);
  ocr_commands : list (Z * string);
  matched_commands : list (Z * option string);
  current_voice_command : option string;
  current_ocr_command : option string;
  current_voice_time : option Z;
  current_ocr_time : option Z
}.

Definition init : HRCDashboard := mkDashboard [] [] [] None None None None.

Definition set_voice (data : string) (t : Z) (d : HRCDashboard) : HRCDashboard :=
  mkDashboard (voice_commands d ++ [(t, data)]) (ocr_commands d) (matched_commands d)
              (Some data) (current_ocr_command d) (Some t) (current_ocr_time d).

Definition set_ocr (data : string) (t : Z) (d : HRCDashboard) : HRCDashboard :=
  mkDashboard (voice_commands d) (ocr_commands d ++ [(t, data)]) (matched_commands d)
              (current_voice_command d) (Some data) (current_voice_time d) (Some t).

(** [self.matched_commands.append(match_entry)] *)
Definition append_match (entry : Z * option string) (d : HRCDashboard) : HRCDashboard :=
  mkDashboard (voice_commands d) (ocr_commands d) (matched_commands d ++ [entry])
              (current_voice_command d) (current_ocr_command d)
              (current_voice_time d) (current_ocr_time d).

(** The four assignments under [# Reset current commands]. *)
Definition reset_current (d : HRCDashboard) : HRCDashboard :=
  mkDashboard (voice_commands d) (ocr_commands d) (matched_commands d)
              None None None None.

(** The window of [check_command_match], ten seconds, in microseconds. *)
Definition window : Z := 10 * 1000000.

(** [HRCDashboard.check_command_match(self)]; [match_time] is what
    [datetime.now()] returns in this call.  A [datetime] is always
    true, so a time attribute is true when it is not [None]; the test
    of the four attributes is made on the two times first, which gives
    their values, then on the two commands. *)
Definition check_command_match (match_time : Z) : prog HRCDashboard unit :=
  self <- get ;;
  match current_voice_time self, current_ocr_time self with
  | Some tv, Some to =>
      if truthy (current_voice_command self) && truthy (current_ocr_command self) then
        if bool_decide (current_voice_command self = current_ocr_command self) then
          let time_diff := Z.abs (tv - to) in
          if time_diff <=? window then
            modify (append_match (match_time, current_voice_command self)) ;;;
            modify reset_current ;;;
            self <- get ;;
            print (LogGuiMatch (current_voice_command self))
          else ret tt
        else ret tt
      else ret tt
  | _, _ => ret tt
  end.

Inductive msg_type : Type :=
| voice_command_msg | ocr_command_msg | reset_msg | other_msg.

(** [HRCDashboard.process_gui_message(self, msg_type, data)];
    [current_time] and [match_time] are the two readings of
    [datetime.now()]. *)
Definition process_gui_message (ty : msg_type) (data : string)
    (current_time match_time : Z) : prog HRCDashboard unit :=
  match ty with
  | voice_command_msg =>
      modify (set_voice data current_time) ;;;
      print (LogGuiVoice data)
  | ocr_command_msg =>
      modify (set_ocr data current_time) ;;;
      print (LogGuiOcr data)
  | reset_msg => modify reset_current
  | other_msg => ret tt
  end ;;;
  check_command_match match_time.

End Dashboard.

(** ** Summaries of a run, and sample collaborators *)

(** What [_execute_command] returns with a given arm controller. *)
Definition dispatch_ok (arm : ArmDriver) (command : option string) : bool :=
  if ARM_AVAILABLE arm then
    match process_voice_command arm command with
    | Returned _ => true
    | Raised _ => false
    end
  else true.

(** What [_execute_command] prints and calls. *)
Definition dispatch_trace (arm : ArmDriver) (command : option string) : list event :=
  if ARM_AVAILABLE arm then
    match process_voice_command arm command with
    | Returned _ => [Printed (LogArmExec command); ArmCall command]
    | Raised e => [Printed (LogArmExec command); ArmCall command; Printed (LogExecError e)]
    end
  else [Printed (LogSimulation command); Sleep 2].

(** The state [add_command] hands to [_check_match]: the slot of the
    source is overwritten and its observation counter incremented. *)
Definition record_observation (cleaned : option string) (source : string)
    (current_time : Z) (m : CommandMatcher) : CommandMatcher :=
  if bool_decide (source = "VOICE") then incr K_voice_commands (set_voice cleaned current_time m)
  else if bool_decide (source = "OCR") then incr K_ocr_commands (set_ocr cleaned current_time m)
  else m.

(** The condition under which the dashboard's [check_command_match]
    records a match. *)
Definition dashboard_fires (d : Dashboard.HRCDashboard) : bool :=
  match Dashboard.current_voice_time d, Dashboard.current_ocr_time d with
  | Some tv, Some to =>
      truthy (Dashboard.current_voice_command d)
      && truthy (Dashboard.current_ocr_command d)
      && bool_decide (Dashboard.current_voice_command d = Dashboard.current_ocr_command d)
      && (Z.abs (tv - to) <=? Dashboard.window)
  | _, _ => false
  end.

(** An arm controller whose calls return. *)
Definition arm_returns : ArmDriver := mkArm true (fun _ => Returned tt).

(** An arm controller whose calls raise. *)
Definition arm_raises : ArmDriver :=
  mkArm true (fun _ => Raised (PyException "arm not connected")).

(** No arm controller: simulation mode. *)
Definition arm_absent : ArmDriver := mkArm false (fun _ => Returned tt).

(** A matcher that holds "one" from the voice channel, heard at tick 100. *)
Definition heard_one : CommandMatcher :=
  mkMatcher (Some "one") 100 None 0 10 (mkStats 1 0 0 0).

(** A matcher whose two slots hold "one", three ticks apart. *)
Definition both_one : CommandMatcher :=
  mkMatcher (Some "one") 100 (Some "one") 103 10 (mkStats 1 1 0 0).

(** A system whose voice process (pid 10) is registered, and an operating
    system in which that process has exited with code 1 and a new process
    gets pid 11. *)
Definition sys_voice_dead : HRCMainSystem :=
  mkSystem {[ "VOICE" := mkPopen 10 ]} (init 15) true.

Definition os_respawn : OS :=
  mkOS "python3" (fun _ => true) (fun _ => Returned (mkPopen 11))
       (fun p => if pid p =? 10 then Some 1 else None).

(** A dashboard whose two slots hold "one", three seconds apart. *)
Definition dash_both_one : Dashboard.HRCDashboard :=
  Dashboard.mkDashboard [(0, "one")] [(3000000, "one")] []
    (Some "one") (Some "one") (Some 0) (Some 3000000).

(** The state [_check_match] leaves after a match whose dispatch
    returned [ok]. *)
Definition fired (ok : bool) (s : CommandMatcher) : CommandMatcher :=
  reset (if ok then incr K_executed_commands (incr K_matched_commands s)
         else incr K_matched_commands s).

(** The events of [_check_match] when a match fires. *)
Definition fired_trace (arm : ArmDriver) (s : CommandMatcher) : list event :=
  Printed (LogMatch (voice_command s) (Z.abs (voice_time s - ocr_time s)))
  :: dispatch_trace arm (voice_command s)
  ++ [Printed ((if dispatch_ok arm (voice_command s) then LogExecuted else LogExecFailed)
               (voice_command s))].

(** The line [add_command] prints for an accepted observation. *)
Definition observation_trace (cleaned : option string) (source : string) : list event :=
  if bool_decide (source = "VOICE") then [Printed (LogVoice cleaned)]
  else if bool_decide (source = "OCR") then [Printed (LogOcr cleaned)]
  else [].

(** The system [check_process] leaves: a registered process that has
    exited is replaced by the new handle when the spawn succeeds. *)
Definition respawned (os : OS) (name script_path : string) (sys : HRCMainSystem)
  : HRCMainSystem :=
  match processes sys !! name with
  | Some process =>
      match poll os process with
      | Some _ =>
          match popen os [sys_executable os; script_path] with
          | Returned new_process => set_process name new_process sys
          | Raised _ => sys
          end
      | None => sys
      end
  | None => sys
  end.

(** The events of [check_process]. *)
Definition check_trace (os : OS) (name script_path : string) (sys : HRCMainSystem)
  : list event :=
  match processes sys !! name with
  | Some process =>
      match poll os process with
      | Some _ =>
          Printed (LogDied name)
          :: Spawn [sys_executable os; script_path]
          :: match popen os [sys_executable os; script_path] with
             | Returned new_process => [Printed (LogRestarted name (pid new_process))]
             | Raised e => [Printed (LogRestartFailed name e)]
             end
      | None => []
      end
  | None => []
  end.

(** The system after the checks of a list of scripts, in order. *)
Definition pass_state (os : OS) (l : list (string * string)) (sys : HRCMainSystem)
  : HRCMainSystem :=
  fold_left (fun s '(name, script_path) => respawned os name script_path s) l sys.

(** ** [class OutputMonitor] of [main9.py]: from output lines to commands *)

Module PyText.

(** [c.islower()] for an ASCII character: 'a' .. 'z'. *)
Definition is_lower (c : ascii) : bool :=
  let n := N_of_ascii c in ((97 <=? n) && (n <=? 122))%N.

Definition upper_char (c : ascii) : ascii :=
  if is_lower c then ascii_of_N (N_of_ascii c - 32) else c.

(** [s.upper()], for [s] of ASCII characters. *)
Fixpoint upper (s : string) : string :=
  match s with
  | EmptyString => EmptyString
  | String c s' => String (upper_char c) (upper s')
  end.

(** [sub in s] *)
Fixpoint contains (sub s : string) : bool :=
  match s with
  | EmptyString => String.prefix sub EmptyString
  | String _ s' => String.prefix sub s || contains sub s'
  end.

(** The scan of [s.split(sep)]: the part up to the next occurrence of
    [sep] and the parts after it; [skip] counts the characters of an
    occurrence of [sep] still to pass over. *)
Fixpoint split_go (sep : string) (skip : nat) (s : string) : string * list string :=
  match s with
  | EmptyString => (EmptyString, [])
  | String c s' =>
      match skip with
      | S k => split_go sep k s'
      | O =>
          if String.prefix sep s then
            (EmptyString,
             let (part, parts) := split_go sep (String.length sep - 1) s' in part :: parts)
          else
            let (part, parts) := split_go sep 0 s' in (String c part, parts)
      end
  end.

(** [s.split(sep)] for a separator that is not empty. *)
Definition split (sep s : string) : list string :=
  let (part, parts) := split_go sep 0 s in part :: parts.

(** Every character of [s] is white space. *)
Fixpoint all_space (s : string) : bool :=
  match s with
  | EmptyString => true
  | String c s' => PyStr.is_space c && all_space s'
  end.

(** [s.isascii()]: every character of [s] is below 128. *)
Fixpoint isascii (s : string) : bool :=
  match s with
  | EmptyString => true
  | String c s' => (N_of_ascii c <? 128)%N && isascii s'
  end.

End PyText.

(** The list [noise] of [_is_noise]. *)
Definition noise : list string :=
  ["DEBUG:"; "INFO:"; "Loading"; "Frame rate:"; "Buffer"].

(** [OutputMonitor._is_noise(self, line)] *)
Definition _is_noise (line : string) : bool :=
  existsb (fun n => PyText.contains n line) noise.

(** The marker of a command line. *)
Definition COMMAND_MARKER : string := "[COMMAND]".

(** [OutputMonitor._process_line(self, source, line)], on the matcher the
    monitor holds; [current_time] is the clock reading of the
    [add_command] it may call.  The result is the line it echoes with
    its source tag, [None] when the line is filtered as noise.  The bare
    [except] catches whatever the extraction or the matcher raises. *)
Definition _process_line (arm : ArmDriver) (source line : string) (current_time : Z)
  : prog CommandMatcher (option (string * string)) :=
  (if PyText.contains COMMAND_MARKER line then
     try_except
       (match PyText.split COMMAND_MARKER line !! 1%nat with
        | Some part =>
            add_command arm (PyStr.strip part) (PyText.upper source) current_time
        | None => raise (PyException "list index out of range")
        end)
       (fun _ => ret tt)
   else ret tt) ;;;
  ret (if _is_noise line then None else Some (PyText.upper source, line)).

(** ** Runs of a matcher shared by several threads *)

(** A call of a public method of the matcher, with what its environment
    gives it: the arm controller as it behaves during the call, and the
    clock reading.  The lock makes the calls of the threads follow one
    another. *)
Inductive matcher_call : Type :=
| CallAdd (arm : ArmDriver) (command source : string) (current_time : Z)
| CallCleanup (current_time : Z).

Definition run_call (c : matcher_call) : prog CommandMatcher unit :=
  match c with
  | CallAdd arm command source current_time => add_command arm command source current_time
  | CallCleanup current_time => cleanup_old_commands current_time
  end.

Fixpoint run_calls (calls : list matcher_call) : prog CommandMatcher unit :=
  match calls with
  | [] => ret tt
  | c :: calls' => run_call c ;;; run_calls calls'
  end.

(** The clock reading a call stores is not zero: [time.time()] returns
    the seconds since 1970. *)
Definition reading_nonzero (c : matcher_call) : Prop :=
  match c with
  | CallAdd _ _ _ current_time => current_time <> 0
  | CallCleanup _ => True
  end.

Definition nonzero_readings (calls : list matcher_call) : Prop :=
  Forall reading_nonzero calls.

(** One when the slot holds an observation that can still take part in a
    match, zero otherwise. *)
Definition pending (slot : option string) : Z := if truthy slot then 1 else 0.

(** The counters fit together: every match was dispatched at most once,
    and it used up one observation of each channel. *)
Definition counters_ok (m : CommandMatcher) : Prop :=
  0 <= executed_commands (stats m) <= matched_commands (stats m)
  /\ matched_commands (stats m) + pending (voice_command m) <= voice_commands (stats m)
  /\ matched_commands (stats m) + pending (ocr_command m) <= ocr_commands (stats m).

(** A slot is empty or holds a canonical command. *)
Definition slot_ok (slot : option string) : Prop :=
  match slot with
  | None => True
  | Some c => c ∈ valid_commands
  end.

(** The events of a trace that are calls into the arm controller carry a
    canonical command. *)
Definition arm_call_ok (e : event) : Prop :=
  match e with
  | ArmCall command => is_valid command = true
  | _ => True
  end.

(** The number of dispatches in a trace. *)
Definition count_dispatches (t : list event) : Z :=
  Z.of_nat (length (filter (fun e => is_dispatch e = true) t)).

(** ** More of [class HRCDashboard]: the timeout bar and the statistics *)

(** The time [update_timeout_progress] measures from: the older of the
    two, or the one that is set. *)
Definition oldest_time (d : Dashboard.HRCDashboard) : option Z :=
  match Dashboard.current_voice_time d, Dashboard.current_ocr_time d with
  | Some tv, Some to => Some (Z.min tv to)
  | Some tv, None => Some tv
  | None, Some to => Some to
  | None, None => None
  end.

(** [HRCDashboard.update_timeout_progress(self)]; [current_time] is what
    [datetime.now()] returns.  The result is the value given to the
    progress bar, in percent, as an exact fraction: [elapsed / 10 * 100]
    with [elapsed] in seconds is the number of microseconds over 100000. *)
Definition update_timeout_progress (current_time : Z)
  : prog Dashboard.HRCDashboard QArith_base.Q :=
  self <- get ;;
  match oldest_time self with
  | Some oldest =>
      let elapsed := current_time - oldest in
      let progress :=
        Qminmax.Qmin (QArith_base.Qmake elapsed 100000) (QArith_base.inject_Z 100) in
      (if Dashboard.window <? elapsed then modify Dashboard.reset_current else ret tt) ;;;
      ret progress
  | None => ret (QArith_base.inject_Z 0)
  end.

(** The success rate [update_display] shows, in percent:
    [matches_count * 2 / total_commands * 100], or zero without
    commands. *)
Definition success_rate (d : Dashboard.HRCDashboard) : QArith_base.Q :=
  let voice_count := Z.of_nat (length (Dashboard.voice_commands d)) in
  let ocr_count := Z.of_nat (length (Dashboard.ocr_commands d)) in
  let matches_count := Z.of_nat (length (Dashboard.matched_commands d)) in
  let total_commands := voice_count + ocr_count in
  if 0 <? total_commands
  then QArith_base.Qmake (matches_count * 2 * 100) (Z.to_pos total_commands)
  else QArith_base.inject_Z 0.

(** A step of the dashboard's updater thread: a message taken from the
    queue, or the update of the timeout bar that follows. *)
Inductive gui_step : Type :=
| GuiMessage (ty : Dashboard.msg_type) (data : string) (current_time match_time : Z)
| GuiTick (current_time : Z).

Definition run_gui_step (st : gui_step) : prog Dashboard.HRCDashboard unit :=
  match st with
  | GuiMessage ty data current_time match_time =>
      Dashboard.process_gui_message ty data current_time match_time
  | GuiTick current_time => update_timeout_progress current_time ;;; ret tt
  end.

Fixpoint run_gui (steps : list gui_step) : prog Dashboard.HRCDashboard unit :=
  match steps with
  | [] => ret tt
  | st :: steps' => run_gui_step st ;;; run_gui steps'
  end.

(** One when both the command and the time of a dashboard slot are set. *)
Definition gui_pending (command : option string) (time : option Z) : Z :=
  match time with
  | Some _ => if truthy command then 1 else 0
  | None => 0
  end.

(** Every recorded match used up one message of each channel. *)
Definition history_ok (d : Dashboard.HRCDashboard) : Prop :=
  Z.of_nat (length (Dashboard.matched_commands d))
  + gui_pending (Dashboard.current_voice_command d) (Dashboard.current_voice_time d)
  <= Z.of_nat (length (Dashboard.voice_commands d))
  /\ Z.of_nat (length (Dashboard.matched_commands d))
     + gui_pending (Dashboard.current_ocr_command d) (Dashboard.current_ocr_time d)
     <= Z.of_nat (length (Dashboard.ocr_commands d)).

(** ** The supervisor from start-up on *)

(** The script [start_everything] and [monitor_and_restart] run under a
    name. *)
Definition script_of (name : string) : option string :=
  snd <$> List.find (fun entry => bool_decide (fst entry = name)) start_scripts.

(** What [start_everything] registers under a name in a new system. *)
Definition started (os : OS) (name : string) : option Popen :=
  match script_of name with
  | Some script_path =>
      if path_exists os script_path then
        match popen os [sys_executable os; script_path] with
        | Returned process => Some process
        | Raised _ => None
        end
      else None
  | None => None
  end.

(** The system after the start-up loop over a list of scripts: a script
    is registered when its file exists and its spawn returns. *)
Definition start_state (os : OS) (l : list (string * string)) (sys : HRCMainSystem)
  : HRCMainSystem :=
  fold_left
    (fun s '(name, script_path) =>
       if path_exists os script_path then
         match popen os [sys_executable os; script_path] with
         | Returned process => set_process name process s
         | Raised _ => s
         end
       else s)
    l sys.

(** No match waits to be taken, and the slots hold canonical commands. *)
Definition settled (s : CommandMatcher) : Prop :=
  match_rule s = false /\ slot_ok (voice_command s) /\ slot_ok (ocr_command s).

(** ** The dispatch path under every kind of exception *)

(** The methods above are written for collaborators that return or raise
    an instance of [Exception].  A Python call can also end with an
    instance of [BaseException] that is not an [Exception]: [sys.exit]
    raises [SystemExit], an interrupt raises [KeyboardInterrupt].  An
    [except Exception] clause lets these pass, a bare [except] catches
    them.  This module embeds the dispatch path of the matcher, and the
    line handler of the monitor that calls it, for a collaborator that may
    end in any of the three ways. *)
Module Wide.

(** The instances of [BaseException] outside [Exception]. *)
Inductive base_exn : Type :=
| SystemExit (code : Z)
| KeyboardInterrupt
| GeneratorExit.

(** How a call ends: it returns a value, an instance of [Exception]
    leaves it, or another [BaseException] leaves it. *)
Inductive result (A : Type) : Type :=
| Returns (a : A)
| Raises (e : exn)
| RaisesBase (b : base_exn).
Arguments Returns {A} a.
Arguments Raises {A} e.
Arguments RaisesBase {A} b.

Definition prog (S A : Type) : Type := S -> result A * S * list event.

Section Prog.
Context {S : Type}.

Definition ret {A} (a : A) : prog S A := fun s => (Returns a, s, []).

Definition bind {A B} (m : prog S A) (k : A -> prog S B) : prog S B :=
  fun s =>
    match m s with
    | (Returns a, s1, t1) =>
        match k a s1 with
        | (r, s2, t2) => (r, s2, t1 ++ t2)
        end
    | (Raises e, s1, t1) => (Raises e, s1, t1)
    | (RaisesBase b, s1, t1) => (RaisesBase b, s1, t1)
    end.

Definition get : prog S S := fun s => (Returns s, s, []).

Definition modify (f : S -> S) : prog S unit := fun s => (Returns tt, f s, []).

Definition emit (e : event) : prog S unit := fun s => (Returns tt, s, [e]).

Definition raise {A} (e : exn) : prog S A := fun s => (Raises e, s, []).

(** [try: m  except Exception as e: h e]: only an instance of
    [Exception] is handled. *)
Definition try_except {A} (m : prog S A) (h : exn -> prog S A) : prog S A :=
  fun s =>
    match m s with
    | (Raises e, s1, t1) =>
        match h e s1 with
        | (r, s2, t2) => (r, s2, t1 ++ t2)
        end
    | (r, s1, t1) => (r, s1, t1)
    end.

(** [try: m  except: h]: the bare clause handles whatever is raised. *)
Definition try_except_all {A} (m : prog S A) (h : prog S A) : prog S A :=
  fun s =>
    match m s with
    | (Returns a, s1, t1) => (Returns a, s1, t1)
    | (_, s1, t1) =>
        match h s1 with
        | (r, s2, t2) => (r, s2, t1 ++ t2)
        end
    end.

(** [with self.lock: m]: the lock is released on every way out. *)
Definition with_lock {A} (m : prog S A) : prog S A :=
  fun s =>
    match m s with
    | (r, s1, t1) => (r, s1, LockAcquire :: t1 ++ [LockRelease])
    end.

(** The result of a call made to a collaborator, outside the object. *)
Definition extern {A} (e : event) (r : result A) : prog S A :=
  fun s => (r, s, [e]).

End Prog.

Declare Scope wide_scope.
Notation "x <- m ;; k" := (bind m (fun x => k))
  (at level 100, m at next level, right associativity) : wide_scope.
Notation "m ;;; k" := (bind m (fun _ => k))
  (at level 100, right associativity) : wide_scope.
Local Open Scope wide_scope.

Definition print {S} (l : log_line) : prog S unit := emit (Printed l).

Definition state_of {S A} (r : result A * S * list event) : S := snd (fst r).
Definition trace_of {S A} (r : result A * S * list event) : list event := snd r.
Definition result_of {S A} (r : result A * S * list event) : result A := fst (fst r).

(** The arm controller module [tapping_1808]: whether its import
    succeeded, and how a call of [process_voice_command] ends. *)
Record ArmDriver : Type := mkArm {
  ARM_AVAILABLE : bool;
  process_voice_command : option string -> result unit
}.

Section Matcher.
Variable arm : ArmDriver.

(** [CommandMatcher._execute_command(self, command)] *)
Definition _execute_command (command : option string) : prog CommandMatcher bool :=
  try_except
    (if ARM_AVAILABLE arm then
       print (LogArmExec command) ;;;
       extern (ArmCall command) (process_voice_command arm command) ;;;
       ret true
     else
       print (LogSimulation command) ;;;
       emit (Sleep 2) ;;;
       ret true)
    (fun e =>
       print (LogExecError e) ;;;
       ret false).

(** [CommandMatcher._check_match(self)] *)
Definition _check_match : prog CommandMatcher unit :=
  self <- get ;;
  if negb (truthy (voice_command self)) || negb (truthy (ocr_command self)) then
    ret tt
  else
    let time_diff := Z.abs (voice_time self - ocr_time self) in
    if bool_decide (voice_command self = ocr_command self)
       && (time_diff <=? timeout self) then
      print (LogMatch (voice_command self) time_diff) ;;;
      modify (incr K_matched_commands) ;;;
      self <- get ;;
      success <- _execute_command (voice_command self) ;;
      (if success : bool then
         modify (incr K_executed_commands) ;;;
         self <- get ;;
         print (LogExecuted (voice_command self))
       else
         self <- get ;;
         print (LogExecFailed (voice_command self))) ;;;
      modify reset
    else
      ret tt.

(** [CommandMatcher.add_command(self, command, source)] *)
Definition add_command (command source : string) (current_time : Z)
  : prog CommandMatcher unit :=
  with_lock
    (let cleaned := _clean_command command in
     if rejected cleaned then
       print (LogInvalid command source)
     else
       (if bool_decide (source = "VOICE") then
          modify (set_voice cleaned current_time) ;;;
          modify (incr K_voice_commands) ;;;
          print (LogVoice cleaned)
        else if bool_decide (source = "OCR") then
          modify (set_ocr cleaned current_time) ;;;
          modify (incr K_ocr_commands) ;;;
          print (LogOcr cleaned)
        else
          ret tt) ;;;
       _check_match).

(** [OutputMonitor._process_line(self, source, line)]: the bare [except]
    around the submission. *)
Definition _process_line (source line : string) (current_time : Z)
  : prog CommandMatcher (option (string * string)) :=
  (if PyText.contains COMMAND_MARKER line then
     try_except_all
       (match PyText.split COMMAND_MARKER line !! 1%nat with
        | Some part =>
            add_command (PyStr.strip part) (PyText.upper source) current_time
        | None => raise (PyException "list index out of range")
        end)
       (ret tt)
   else ret tt) ;;;
  ret (if _is_noise line then None else Some (PyText.upper source, line)).

(** What [_execute_command] returns or lets through. *)
Definition dispatch_result (command : option string) : result bool :=
  if ARM_AVAILABLE arm then
    match process_voice_command arm command with
    | Returns _ => Returns true
    | Raises _ => Returns false
    | RaisesBase b => RaisesBase b
    end
  else Returns true.

(** What [_execute_command] prints and calls. *)
Definition dispatch_trace (command : option string) : list event :=
  if ARM_AVAILABLE arm then
    match process_voice_command arm command with
    | Returns _ => [Printed (LogArmExec command); ArmCall command]
    | Raises e => [Printed (LogArmExec command); ArmCall command; Printed (LogExecError e)]
    | RaisesBase _ => [Printed (LogArmExec command); ArmCall command]
    end
  else [Printed (LogSimulation command); Sleep 2].

(** How [_check_match] ends when the match rule holds: after a dispatch
    that returned, the state is [fired]; when the dispatch did not
    return, the match is counted and the slots are as they were. *)
Definition fired_run (s : CommandMatcher) : result unit * CommandMatcher * list event :=
  let head :=
    Printed (LogMatch (voice_command s) (Z.abs (voice_time s - ocr_time s)))
    :: dispatch_trace (voice_command s) in
  match dispatch_result (voice_command s) with
  | Returns ok =>
      (Returns tt, fired ok s,
       head ++ [Printed ((if ok then LogExecuted else LogExecFailed) (voice_command s))])
  | Raises e => (Raises e, incr K_matched_commands s, head)
  | RaisesBase b => (RaisesBase b, incr K_matched_commands s, head)
  end.

End Matcher.

(** The collaborator returns or raises an instance of [Exception],
    whatever it is called with. *)
Definition raises_only_exceptions (arm : ArmDriver) : Prop :=
  forall command b, process_voice_command arm command <> RaisesBase b.

End Wide.

(** A call that returns or raises an instance of [Exception], among the
    calls of [Wide]. *)
Definition widen_outcome {A} (o : outcome A) : Wide.result A :=
  match o with
  | Returned a => Wide.Returns a
  | Raised e => Wide.Raises e
  end.

Definition widen {S A} (m : prog S A) : Wide.prog S A :=
  fun s => match m s with (o, s1, t1) => (widen_outcome o, s1, t1) end.

Definition arm_of (arm : ArmDriver) : Wide.ArmDriver :=
  Wide.mkArm (ARM_AVAILABLE arm) (fun command => widen_outcome (process_voice_command arm command)).

(** An arm controller whose calls end the interpreter: [sys.exit(1)]. *)
Definition arm_exits : Wide.ArmDriver :=
  Wide.mkArm true (fun _ => Wide.RaisesBase (Wide.SystemExit 1)).

(** * Properties *)

(** ** Runs of the methods *)

Ltac run :=
  cbv [bind ret get modify emit print extern try_except with_lock raise].

Lemma bind_get {S A} (k : S -> prog S A) (s : S) :
  (self <- get ;; k self) s = k s s.
Proof.
  unfold bind, get. destruct (k s s) as [[r s2] t2]. reflexivity.
Qed.

Lemma _execute_command_run arm c s :
  _execute_command arm c s = (Returned (dispatch_ok arm c), s, dispatch_trace arm c).
Proof.
  unfold _execute_command, dispatch_ok, dispatch_trace. run.
  destruct (ARM_AVAILABLE arm); [|reflexivity].
  destruct (process_voice_command arm c); reflexivity.
Qed.

Lemma match_rule_guard s :
  match_rule s =
  if negb (truthy (voice_command s)) || negb (truthy (ocr_command s)) then false
  else bool_decide (voice_command s = ocr_command s)
       && (Z.abs (voice_time s - ocr_time s) <=? timeout s).
Proof.
  unfold match_rule.
  destruct (truthy (voice_command s)), (truthy (ocr_command s)); reflexivity.
Qed.

Lemma _check_match_run arm s :
  _check_match arm s =
  if match_rule s
  then (Returned tt, fired (dispatch_ok arm (voice_command s)) s, fired_trace arm s)
  else (Returned tt, s, []).
Proof.
  rewrite match_rule_guard. unfold _check_match, bind at 1, get.
  destruct (negb (truthy (voice_command s)) || negb (truthy (ocr_command s))); [reflexivity|].
  destruct (bool_decide (voice_command s = ocr_command s)
            && (Z.abs (voice_time s - ocr_time s) <=? timeout s)); [|reflexivity].
  unfold fired, fired_trace.
  cbv [bind print emit modify get]. rewrite _execute_command_run.
  cbn [voice_command incr].
  destruct (dispatch_ok arm (voice_command s)); cbn; rewrite ?app_nil_r; reflexivity.
Qed.

Lemma add_command_rejected arm command source now s :
  rejected (_clean_command command) = true ->
  add_command arm command source now s
  = (Returned tt, s, [LockAcquire; Printed (LogInvalid command source); LockRelease]).
Proof.
  intros Hrej. unfold add_command, with_lock. rewrite Hrej. reflexivity.
Qed.

Lemma add_command_accepted arm command source now s :
  rejected (_clean_command command) = false ->
  let cleaned := _clean_command command in
  let s1 := record_observation cleaned source now s in
  add_command arm command source now s
  = if match_rule s1
    then (Returned tt, fired (dispatch_ok arm (voice_command s1)) s1,
          LockAcquire :: (observation_trace cleaned source ++ fired_trace arm s1)
                      ++ [LockRelease])
    else (Returned tt, s1, LockAcquire :: observation_trace cleaned source ++ [LockRelease]).
Proof.
  intros Hacc cleaned s1. unfold add_command, with_lock. rewrite Hacc.
  fold cleaned. unfold bind at 1.
  assert (Hobs :
    (if bool_decide (source = "VOICE")
     then modify (set_voice cleaned now) ;;; modify (incr K_voice_commands) ;;;
          print (LogVoice cleaned)
     else if bool_decide (source = "OCR")
          then modify (set_ocr cleaned now) ;;; modify (incr K_ocr_commands) ;;;
               print (LogOcr cleaned)
          else ret tt) s
    = (Returned tt, s1, observation_trace cleaned source)).
  { unfold s1, record_observation, observation_trace.
    destruct (bool_decide (source = "VOICE")); [reflexivity|].
    destruct (bool_decide (source = "OCR")); reflexivity. }
  rewrite Hobs, _check_match_run.
  destruct (match_rule s1); rewrite ?app_nil_r; reflexivity.
Qed.

(** ** Normalisation *)

Lemma mappings_canonical key c :
  mappings !! key = Some c -> c ∈ valid_commands /\ PyStr.truthy c = true.
Proof.
  unfold mappings. intros H. apply elem_of_list_to_map_2 in H.
  repeat (apply elem_of_cons in H as [H|H];
          [injection H as _ ->; split; [set_solver | reflexivity]|]).
  inversion H.
Qed.

Lemma valid_commands_truthy c : c ∈ valid_commands -> PyStr.truthy c = true.
Proof.
  unfold valid_commands. intros H.
  repeat (apply elem_of_cons in H as [->|H]; [reflexivity|]).
  inversion H.
Qed.

Lemma strip_lower_empty command :
  PyStr.truthy command = false -> PyStr.strip (PyStr.lower command) = "".
Proof. destruct command; [reflexivity | discriminate]. Qed.

Lemma rejected_false_iff cleaned :
  rejected cleaned = false <-> exists c, cleaned = Some c /\ c ∈ valid_commands.
Proof.
  unfold rejected, is_valid. split.
  - destruct cleaned as [c|]; [|discriminate]. intros H.
    apply orb_false_iff in H as [_ H]. apply negb_false_iff in H.
    apply bool_decide_eq_true in H. eauto.
  - intros (c & -> & Hc). cbn. rewrite (valid_commands_truthy c Hc).
    rewrite bool_decide_eq_true_2 by exact Hc. reflexivity.
Qed.

(** C2. A token whose lower-cased, trimmed form is a key of the
    correction table is cleaned to the command the table maps it to, a
    canonical command, and is accepted; a token whose lower-cased,
    trimmed form is neither a key of the table nor a canonical command is
    rejected.  [_clean_command] and the guard are functions of the token
    alone: they read and change nothing else. *)
Theorem normalize_table_and_invalid :
  (forall raw c,
      mappings !! PyStr.strip (PyStr.lower raw) = Some c ->
      _clean_command raw = Some c /\ c ∈ valid_commands
      /\ rejected (_clean_command raw) = false)
  /\ (forall raw,
      mappings !! PyStr.strip (PyStr.lower raw) = None ->
      PyStr.strip (PyStr.lower raw) ∉ valid_commands ->
      rejected (_clean_command raw) = true).
Proof.
  split.
  - intros raw c Hc. destruct (mappings_canonical _ _ Hc) as [Hv Ht].
    assert (Hclean : _clean_command raw = Some c).
    { unfold _clean_command. destruct (PyStr.truthy raw) eqn:Hraw; cbv [negb].
      - rewrite Hc. reflexivity.
      - rewrite (strip_lower_empty raw Hraw) in Hc. vm_compute in Hc. discriminate. }
    rewrite Hclean. split; [reflexivity|]. split; [exact Hv|].
    apply rejected_false_iff. eauto.
  - intros raw Hnone Hnot. unfold _clean_command.
    destruct (PyStr.truthy raw); cbv [negb]; [|reflexivity].
    rewrite Hnone. cbv [default].
    destruct (rejected (Some (PyStr.strip (PyStr.lower raw)))) eqn:Hr; [reflexivity|].
    apply rejected_false_iff in Hr as (c & [= <-] & Hc). contradiction.
Qed.

Lemma normalize_table_and_invalid_witness :
  (_clean_command "  TOO " = Some "two" /\ "two" ∈ valid_commands
   /\ rejected (_clean_command "  TOO ") = false)
  /\ rejected (_clean_command "Seven") = true.
Proof.
  split.
  - apply (proj1 normalize_table_and_invalid "  TOO " "two"). vm_compute. reflexivity.
  - apply (proj2 normalize_table_and_invalid "Seven").
    + vm_compute. reflexivity.
    + apply (proj1 (bool_decide_eq_false _)). vm_compute. reflexivity.
Defined.

(** ** Rejected observations *)

(** C3. A submission whose token is rejected returns after printing the
    rejection, and the matcher is the same afterwards: both slots, both
    timestamps, the timeout and all four counters. *)
Theorem invalid_token_leaves_state arm command source now s :
  rejected (_clean_command command) = true ->
  let r := add_command arm command source now s in
  outcome_of r = Returned tt
  /\ state_of r = s
  /\ trace_of r = [LockAcquire; Printed (LogInvalid command source); LockRelease].
Proof.
  intros Hrej r. unfold r. rewrite add_command_rejected by exact Hrej.
  repeat split.
Qed.

Lemma invalid_token_leaves_state_witness :
  state_of (add_command arm_returns "seven" "VOICE" 100 heard_one) = heard_one.
Proof.
  apply (invalid_token_leaves_state arm_returns "seven" "VOICE" 100 heard_one).
  vm_compute. reflexivity.
Defined.

(** ** Matching a pair of observations *)

Lemma accepted_truthy cleaned : rejected cleaned = false -> truthy cleaned = true.
Proof.
  unfold rejected. intros H. apply orb_false_iff in H as [H _].
  apply negb_false_iff in H. exact H.
Qed.

Lemma match_rule_empty_voice s : voice_command s = None -> match_rule s = false.
Proof. unfold match_rule. intros ->. reflexivity. Qed.

Lemma match_rule_empty_ocr s : ocr_command s = None -> match_rule s = false.
Proof.
  unfold match_rule. intros ->. cbn. rewrite andb_false_r. reflexivity.
Qed.

Lemma record_voice c t s :
  record_observation c "VOICE" t s = incr K_voice_commands (set_voice c t s).
Proof. reflexivity. Qed.

Lemma record_ocr c t s :
  record_observation c "OCR" t s = incr K_ocr_commands (set_ocr c t s).
Proof. reflexivity. Qed.

Lemma add_command_state arm command source now s :
  rejected (_clean_command command) = false ->
  state_of (add_command arm command source now s)
  = let s1 := record_observation (_clean_command command) source now s in
    if match_rule s1 then fired (dispatch_ok arm (voice_command s1)) s1 else s1.
Proof.
  intros Hacc. rewrite (add_command_accepted arm command source now s Hacc).
  cbv zeta. destruct (match_rule _); reflexivity.
Qed.

Lemma fired_stats ok s :
  matched_commands (stats (fired ok s)) = matched_commands (stats s) + 1
  /\ executed_commands (stats (fired ok s))
     = executed_commands (stats s) + (if ok then 1 else 0)
  /\ voice_commands (stats (fired ok s)) = voice_commands (stats s)
  /\ ocr_commands (stats (fired ok s)) = ocr_commands (stats s).
Proof. destruct ok; cbn; repeat split; lia. Qed.

Lemma fired_slots ok s :
  voice_command (fired ok s) = None /\ voice_time (fired ok s) = 0
  /\ ocr_command (fired ok s) = None /\ ocr_time (fired ok s) = 0
  /\ timeout (fired ok s) = timeout s.
Proof. destruct ok; repeat split. Qed.

Lemma record_observation_matched cleaned source now s :
  matched_commands (stats (record_observation cleaned source now s))
  = matched_commands (stats s).
Proof.
  unfold record_observation.
  destruct (bool_decide (source = "VOICE")); [reflexivity|].
  destruct (bool_decide (source = "OCR")); reflexivity.
Qed.

(** Two accepted observations of one command, within the window, are in
    the slots: the match rule holds. *)
Lemma match_rule_pair s c t_voice t_ocr :
  voice_command s = c -> ocr_command s = c -> truthy c = true ->
  voice_time s = t_voice -> ocr_time s = t_ocr ->
  Z.abs (t_voice - t_ocr) <= timeout s ->
  match_rule s = true.
Proof.
  intros Hv Ho Ht Htv Hto Hdt. unfold match_rule.
  rewrite Hv, Ho, Htv, Hto, Ht. rewrite bool_decide_eq_true_2 by reflexivity.
  apply Z.leb_le. exact Hdt.
Qed.

(** The second of two submissions, one per channel, of one accepted
    command within the window: whether or not the first one fired, the
    match counter ends one above its value before the first. *)
Lemma second_submission_count arm s1 s c source now :
  truthy c = true ->
  matched_commands (stats s1) = matched_commands (stats s) ->
  (match_rule s1 = false -> match_rule (record_observation c source now s1) = true) ->
  match_rule (record_observation c source now (fired (dispatch_ok arm (voice_command s1)) s1))
  = false ->
  let after_first :=
    if match_rule s1 then fired (dispatch_ok arm (voice_command s1)) s1 else s1 in
  let s2 := record_observation c source now after_first in
  matched_commands
    (stats (if match_rule s2 then fired (dispatch_ok arm (voice_command s2)) s2 else s2))
  = matched_commands (stats s) + 1.
Proof.
  intros Ht Hcount Hquiet Hfired after_first s2. subst s2 after_first.
  destruct (match_rule s1) eqn:Hfirst.
  - rewrite Hfired, record_observation_matched.
    destruct (fired_stats (dispatch_ok arm (voice_command s1)) s1) as (-> & _).
    rewrite Hcount. reflexivity.
  - rewrite (Hquiet eq_refl).
    match goal with
    | |- context [fired ?ok ?st] => destruct (fired_stats ok st) as (-> & _)
    end.
    rewrite record_observation_matched, Hcount. reflexivity.
Qed.

(** C1. Two accepted observations with the same canonical command, one
    from the voice channel and one from the OCR channel, whose timestamps
    differ by at most the timeout, are submitted one after the other.  In
    either order the match counter ends exactly one above its value
    before; and when the two slots were empty before, both are empty
    afterwards. *)
Theorem pair_within_window_matches_once arm s raw_voice raw_ocr t_voice t_ocr :
  rejected (_clean_command raw_voice) = false ->
  _clean_command raw_voice = _clean_command raw_ocr ->
  Z.abs (t_voice - t_ocr) <= timeout s ->
  let voice_first :=
    state_of (add_command arm raw_ocr "OCR" t_ocr
                (state_of (add_command arm raw_voice "VOICE" t_voice s))) in
  let ocr_first :=
    state_of (add_command arm raw_voice "VOICE" t_voice
                (state_of (add_command arm raw_ocr "OCR" t_ocr s))) in
  matched_commands (stats voice_first) = matched_commands (stats s) + 1
  /\ matched_commands (stats ocr_first) = matched_commands (stats s) + 1
  /\ (voice_command s = None ->
      ocr_command s = None ->
      (voice_command voice_first = None /\ ocr_command voice_first = None)
      /\ (voice_command ocr_first = None /\ ocr_command ocr_first = None)).
Proof.
  intros Hacc Heq Hdt.
  assert (Hacc' : rejected (_clean_command raw_ocr) = false) by (rewrite <- Heq; exact Hacc).
  pose proof (accepted_truthy _ Hacc) as Ht.
  intros voice_first ocr_first. subst voice_first ocr_first.
  rewrite !add_command_state by assumption. cbv zeta. rewrite <- Heq.
  set (c := _clean_command raw_voice) in *.
  split; [|split].
  - apply second_submission_count.
    + exact Ht.
    + apply record_observation_matched.
    + intros _. rewrite record_voice, record_ocr.
      apply (match_rule_pair _ c t_voice t_ocr); try reflexivity; assumption.
    + rewrite record_ocr. apply match_rule_empty_voice.
      cbn [voice_command incr set_ocr]. apply fired_slots.
  - apply second_submission_count.
    + exact Ht.
    + apply record_observation_matched.
    + intros _. rewrite record_voice, record_ocr.
      apply (match_rule_pair _ c t_voice t_ocr); try reflexivity; assumption.
    + rewrite record_voice. apply match_rule_empty_ocr.
      cbn [ocr_command incr set_voice]. apply fired_slots.
  - intros Hv Ho.
    rewrite (match_rule_empty_ocr (record_observation c "VOICE" t_voice s)) by exact Ho.
    rewrite (match_rule_empty_voice (record_observation c "OCR" t_ocr s)) by exact Hv.
    set (s_vo := record_observation c "OCR" _ (record_observation c "VOICE" _ s)).
    set (s_ov := record_observation c "VOICE" _ (record_observation c "OCR" _ s)).
    assert (Hvo : match_rule s_vo = true).
    { unfold s_vo. rewrite record_voice, record_ocr.
      apply (match_rule_pair _ c t_voice t_ocr); try reflexivity; assumption. }
    assert (Hov : match_rule s_ov = true).
    { unfold s_ov. rewrite record_voice, record_ocr.
      apply (match_rule_pair _ c t_voice t_ocr); try reflexivity; assumption. }
    rewrite Hvo, Hov.
    destruct (fired_slots (dispatch_ok arm (voice_command s_vo)) s_vo) as (-> & _ & -> & _).
    destruct (fired_slots (dispatch_ok arm (voice_command s_ov)) s_ov) as (-> & _ & -> & _).
    repeat split.
Qed.

Lemma pair_within_window_matches_once_witness :
  let voice_first :=
    state_of (add_command arm_returns "too" "OCR" 3
                (state_of (add_command arm_returns "two" "VOICE" 0 (init 10)))) in
  let ocr_first :=
    state_of (add_command arm_returns "two" "VOICE" 0
                (state_of (add_command arm_returns "too" "OCR" 3 (init 10)))) in
  matched_commands (stats voice_first) = matched_commands (stats (init 10)) + 1
  /\ matched_commands (stats ocr_first) = matched_commands (stats (init 10)) + 1
  /\ (voice_command voice_first = None /\ ocr_command voice_first = None)
  /\ (voice_command ocr_first = None /\ ocr_command ocr_first = None).
Proof.
  destruct (pair_within_window_matches_once arm_returns (init 10) "two" "too" 0 3)
    as (Hvo & Hov & Hslots).
  - vm_compute. reflexivity.
  - vm_compute. reflexivity.
  - simpl. lia.
  - split; [exact Hvo|]. split; [exact Hov|]. apply Hslots; reflexivity.
Defined.

(** ** The sweep of expired slots *)

Lemma nonzero_true t : nonzero t = true <-> t <> 0.
Proof.
  unfold nonzero. rewrite negb_true_iff. split.
  - intros H. apply Z.eqb_neq. exact H.
  - intros H. apply Z.eqb_neq. exact H.
Qed.

Lemma nonzero_false t : nonzero t = false <-> t = 0.
Proof.
  unfold nonzero. rewrite negb_false_iff. apply Z.eqb_eq.
Qed.

(** The state [cleanup_old_commands] leaves. *)
Lemma cleanup_old_commands_state now s :
  let expired t := nonzero t && (timeout s <? now - t) in
  let r := cleanup_old_commands now s in
  outcome_of r = Returned tt
  /\ state_of r
     = mkMatcher (if expired (voice_time s) then None else voice_command s)
                 (if expired (voice_time s) then 0 else voice_time s)
                 (if expired (ocr_time s) then None else ocr_command s)
                 (if expired (ocr_time s) then 0 else ocr_time s)
                 (timeout s) (stats s)
  /\ dispatched_under_lock (trace_of r) = []
  /\ dispatched_outside_lock (trace_of r) = [].
Proof.
  intros expired r. subst expired r. unfold cleanup_old_commands. run.
  destruct s as [vc vt oc ot T st]. cbn [voice_time ocr_time timeout voice_command ocr_command stats].
  destruct (nonzero vt && (T <? now - vt)); cbn;
    destruct (nonzero ot && (T <? now - ot)); cbn; repeat split.
Qed.

Lemma heard_one_inv : slot_inv heard_one.
Proof.
  split; cbn; split; intros H; first [discriminate | exfalso; apply H; reflexivity].
Qed.

(** ** The slot invariant *)

Lemma slot_inv_fired ok s : slot_inv (fired ok s).
Proof.
  destruct (fired_slots ok s) as (Hvc & Hvt & Hoc & Hot & _).
  unfold slot_inv. rewrite Hvc, Hvt, Hoc, Hot. split; split; intros H; contradiction.
Qed.

Lemma slot_inv_record cleaned source now s :
  slot_inv s -> cleaned <> None -> now <> 0 ->
  slot_inv (record_observation cleaned source now s).
Proof.
  intros [Hv Ho] Hc Hnow. unfold record_observation.
  destruct (bool_decide (source = "VOICE")); [|destruct (bool_decide (source = "OCR"))].
  - split; cbn; [split; intros _; assumption | exact Ho].
  - split; cbn; [exact Hv | split; intros _; assumption].
  - split; assumption.
Qed.

(** ** Dispatch *)

(** C5 as stated fails: with a match whose dispatch fails, no counter
    other than the match counter goes up, so no dispatch-failure counter
    is incremented. *)
Lemma failed_dispatch_counts_no_failure_cex :
  let r := _check_match arm_raises both_one in
  outcome_of (_execute_command arm_raises (voice_command both_one) both_one)
  = Returned false
  /\ stats both_one = mkStats 1 1 0 0
  /\ stats (state_of r) = mkStats 1 1 1 0
  /\ ~ (exists k, k <> K_matched_commands
                  /\ stat k (stats (state_of r)) = stat k (stats both_one) + 1).
Proof.
  cbv zeta. split; [reflexivity|]. split; [reflexivity|]. split; [reflexivity|].
  intros (k & Hk & Hincr). destruct k; vm_compute in Hincr; congruence.
Qed.

(** C5, amended. When the match rule holds and the dispatch of the
    matched command reports failure, [_check_match] increments the match
    counter by one and leaves the dispatch-success counter
    [executed_commands], like every counter other than the match counter,
    as it was; the failure shows in the log only. *)
Theorem failed_dispatch_counts arm s :
  match_rule s = true ->
  outcome_of (_execute_command arm (voice_command s) s) = Returned false ->
  let r := _check_match arm s in
  stat K_matched_commands (stats (state_of r)) = stat K_matched_commands (stats s) + 1
  /\ stat K_executed_commands (stats (state_of r)) = stat K_executed_commands (stats s)
  /\ (forall k, k <> K_matched_commands ->
                stat k (stats (state_of r)) = stat k (stats s))
  /\ In (Printed (LogExecFailed (voice_command s))) (trace_of r).
Proof.
  intros Hrule Hfail r. subst r.
  rewrite _execute_command_run in Hfail. cbn in Hfail. injection Hfail as Hok.
  rewrite _check_match_run, Hrule, Hok. unfold state_of, trace_of. cbn [fst snd].
  split; [reflexivity|]. split; [reflexivity|]. split.
  - intros k Hk. destruct k; [reflexivity | reflexivity | contradiction | reflexivity].
  - unfold fired_trace. rewrite Hok. right. apply in_or_app. right. left. reflexivity.
Qed.

Lemma failed_dispatch_counts_witness :
  stat K_matched_commands (stats (state_of (_check_match arm_raises both_one)))
  = stat K_matched_commands (stats both_one) + 1
  /\ stat K_executed_commands (stats (state_of (_check_match arm_raises both_one)))
     = stat K_executed_commands (stats both_one).
Proof.
  destruct (failed_dispatch_counts arm_raises both_one) as (Hm & He & _).
  - vm_compute. reflexivity.
  - reflexivity.
  - split; [exact Hm | exact He].
Defined.

(** ** Dispatch and the lock *)

(** C8 as stated fails: in a submission that fires a match, the call
    into the arm controller is made while the lock is held. *)
Lemma dispatch_outside_lock_cex :
  let r := add_command arm_returns "one" "OCR" 103 heard_one in
  matched_commands (stats (state_of r)) = matched_commands (stats heard_one) + 1
  /\ trace_of r
     = [LockAcquire; Printed (LogOcr (Some "one")); Printed (LogMatch (Some "one") 3);
        Printed (LogArmExec (Some "one")); ArmCall (Some "one");
        Printed (LogExecuted (Some "one")); LockRelease]
  /\ dispatched_under_lock (trace_of r) = [ArmCall (Some "one")]
  /\ dispatched_under_lock (trace_of r) <> [].
Proof.
  cbv zeta. split; [reflexivity|]. split; [reflexivity|]. split; [reflexivity|].
  vm_compute. discriminate.
Qed.

(** In the trace of a submission that fires, the one slow action lies
    between the acquisition and the release of the lock. *)
Lemma dispatches_fired_trace arm s pre :
  (forall e, In e pre -> exists l, e = Printed l) ->
  dispatched_under_lock (LockAcquire :: (pre ++ fired_trace arm s) ++ [LockRelease])
  = [if ARM_AVAILABLE arm then ArmCall (voice_command s) else Sleep 2]
  /\ dispatched_outside_lock (LockAcquire :: (pre ++ fired_trace arm s) ++ [LockRelease])
     = [].
Proof.
  intros Hpre. unfold dispatched_under_lock, dispatched_outside_lock.
  cbn [dispatches]. induction pre as [|e pre IH].
  - unfold fired_trace, dispatch_trace, dispatch_ok.
    destruct (ARM_AVAILABLE arm); [destruct (process_voice_command arm (voice_command s))|];
      split; reflexivity.
  - destruct (Hpre e (or_introl eq_refl)) as [l ->]. cbn.
    apply IH. intros e' He'. apply Hpre. right. exact He'.
Qed.

(** C8, amended. In every submission that produces a match the dispatch
    runs inside the critical section: the call into the arm controller
    (or the sleep that simulates it) is made while the lock is held, none
    is made with the lock free, and the lock is released last, after the
    boolean outcome has been added to the success counter and both slots
    have been cleared. *)
Theorem dispatch_runs_under_lock arm raw source now s :
  matched_commands (stats (state_of (add_command arm raw source now s)))
  <> matched_commands (stats s) ->
  let r := add_command arm raw source now s in
  let s1 := record_observation (_clean_command raw) source now s in
  dispatched_under_lock (trace_of r)
  = [if ARM_AVAILABLE arm then ArmCall (voice_command s1) else Sleep 2]
  /\ dispatched_outside_lock (trace_of r) = []
  /\ (exists t, trace_of r = LockAcquire :: t ++ [LockRelease])
  /\ executed_commands (stats (state_of r))
     = executed_commands (stats s)
       + (if dispatch_ok arm (voice_command s1) then 1 else 0)
  /\ voice_command (state_of r) = None /\ ocr_command (state_of r) = None.
Proof.
  intros Hfired r s1. subst r.
  destruct (rejected (_clean_command raw)) eqn:Hrej.
  { exfalso. apply Hfired. rewrite add_command_rejected by exact Hrej. reflexivity. }
  revert Hfired. rewrite (add_command_accepted arm raw source now s Hrej). cbv zeta.
  fold s1. destruct (match_rule s1) eqn:Hrule.
  - intros _. unfold trace_of, state_of. cbn [fst snd].
    destruct (dispatches_fired_trace arm s1 (observation_trace (_clean_command raw) source))
      as [Hin Hout].
    { unfold observation_trace. intros e He.
      destruct (bool_decide (source = "VOICE")); [|destruct (bool_decide (source = "OCR"))];
        cbn in He; intuition eauto. }
    rewrite Hin, Hout. split; [reflexivity|]. split; [reflexivity|].
    split; [eexists; reflexivity|].
    destruct (fired_stats (dispatch_ok arm (voice_command s1)) s1) as (_ & -> & _).
    destruct (fired_slots (dispatch_ok arm (voice_command s1)) s1) as (-> & _ & -> & _).
    split; [|split; reflexivity]. f_equal.
    unfold s1, record_observation.
    destruct (bool_decide (source = "VOICE")); [reflexivity|].
    destruct (bool_decide (source = "OCR")); reflexivity.
  - intros H. exfalso. apply H. unfold state_of. cbn [fst snd].
    unfold s1, record_observation.
    destruct (bool_decide (source = "VOICE")); [reflexivity|].
    destruct (bool_decide (source = "OCR")); reflexivity.
Qed.

Lemma dispatch_runs_under_lock_witness :
  dispatched_under_lock (trace_of (add_command arm_returns "one" "OCR" 103 heard_one))
  = [ArmCall (Some "one")]
  /\ dispatched_outside_lock (trace_of (add_command arm_returns "one" "OCR" 103 heard_one))
     = [].
Proof.
  destruct (dispatch_runs_under_lock arm_returns "one" "OCR" 103 heard_one)
    as (Hin & Hout & _).
  - vm_compute. discriminate.
  - split; [exact Hin | exact Hout].
Defined.

(** ** The dashboard's matcher *)

(** C9. The dashboard decides matches by itself, with its own window of
    ten seconds.  Whenever its [check_command_match] records a match, the
    line it prints after the reset shows [None], though the command
    recorded in the match entry is a non-empty string; when no match is
    recorded nothing is printed and nothing changes. *)
Theorem dashboard_match_logs_cleared_command d match_time :
  let r := Dashboard.check_command_match match_time d in
  (dashboard_fires d = true ->
   trace_of r = [Printed (LogGuiMatch None)]
   /\ Dashboard.matched_commands (state_of r)
      = Dashboard.matched_commands d ++ [(match_time, Dashboard.current_voice_command d)]
   /\ truthy (Dashboard.current_voice_command d) = true
   /\ Dashboard.current_voice_command (state_of r) = None)
  /\ (dashboard_fires d = false -> trace_of r = [] /\ state_of r = d).
Proof.
  cbv zeta. unfold dashboard_fires, Dashboard.check_command_match.
  rewrite bind_get.
  destruct (Dashboard.current_voice_time d) as [tv|];
    [destruct (Dashboard.current_ocr_time d) as [to|]|];
    try (split; [discriminate | intros _; split; reflexivity]).
  destruct (truthy (Dashboard.current_voice_command d)) eqn:Hv; cbn [andb];
    [|split; [discriminate | intros _; split; reflexivity]].
  destruct (truthy (Dashboard.current_ocr_command d)); cbn [andb];
    [|split; [discriminate | intros _; split; reflexivity]].
  destruct (bool_decide (Dashboard.current_voice_command d = Dashboard.current_ocr_command d));
    cbn [andb]; [|split; [discriminate | intros _; split; reflexivity]].
  destruct (Z.abs (tv - to) <=? Dashboard.window);
    [|split; [discriminate | intros _; split; reflexivity]].
  split; [|discriminate]. intros _. repeat split.
Qed.

Lemma dashboard_match_logs_cleared_command_witness :
  trace_of (Dashboard.check_command_match 3000001 dash_both_one)
  = [Printed (LogGuiMatch None)]
  /\ Dashboard.matched_commands (state_of (Dashboard.check_command_match 3000001 dash_both_one))
     = [(3000001, Some "one")].
Proof.
  destruct (dashboard_match_logs_cleared_command dash_both_one 3000001) as [Hfires _].
  destruct Hfires as (Ht & Hm & _); [vm_compute; reflexivity|].
  split; [exact Ht | exact Hm].
Defined.

(** ** Supervision *)

Lemma check_process_run os name script_path sys :
  check_process os name script_path sys
  = (Returned tt, respawned os name script_path sys, check_trace os name script_path sys).
Proof.
  unfold check_process, respawned, check_trace. rewrite bind_get.
  destruct (processes sys !! name) as [process|]; [|reflexivity].
  destruct (poll os process); [|reflexivity].
  run. destruct (popen os [sys_executable os; script_path]); reflexivity.
Qed.

Lemma respawned_frame os name script_path sys :
  command_matcher (respawned os name script_path sys) = command_matcher sys
  /\ running (respawned os name script_path sys) = running sys
  /\ (forall other, other <> name ->
        processes (respawned os name script_path sys) !! other = processes sys !! other).
Proof.
  unfold respawned.
  destruct (processes sys !! name) as [process|]; [|repeat split].
  destruct (poll os process); [|repeat split].
  destruct (popen os [sys_executable os; script_path]); [|repeat split].
  repeat split. intros other Hne. cbn. apply lookup_insert_ne. congruence.
Qed.

Lemma respawned_dead os name script_path sys h code :
  processes sys !! name = Some h ->
  poll os h = Some code ->
  processes (respawned os name script_path sys) !! name
  = match popen os [sys_executable os; script_path] with
    | Returned new_process => Some new_process
    | Raised _ => Some h
    end.
Proof.
  intros Hreg Hdead. unfold respawned. rewrite Hreg, Hdead.
  destruct (popen os [sys_executable os; script_path]); [|exact Hreg].
  cbn. apply lookup_insert_eq.
Qed.

Lemma pass_state_frame os l sys :
  command_matcher (pass_state os l sys) = command_matcher sys
  /\ running (pass_state os l sys) = running sys
  /\ (forall other, ~ In other (map fst l) ->
        processes (pass_state os l sys) !! other = processes sys !! other).
Proof.
  revert sys. induction l as [|[name script_path] l IH]; intros sys; [repeat split|].
  cbn [pass_state fold_left]. fold (pass_state os l (respawned os name script_path sys)).
  destruct (IH (respawned os name script_path sys)) as (Hm & Hr & Hp).
  destruct (respawned_frame os name script_path sys) as (Hm' & Hr' & Hp').
  split; [congruence|]. split; [congruence|].
  intros other Hnot. cbn in Hnot. rewrite Hp by tauto. apply Hp'. intros ->. tauto.
Qed.

Lemma for_each_check_run os l sys :
  exists t,
    for_each l (fun '(name, script_path) => check_process os name script_path) sys
    = (Returned tt, pass_state os l sys, t)
    /\ (forall name script_path h code,
          NoDup (map fst l) ->
          In (name, script_path) l ->
          processes sys !! name = Some h ->
          poll os h = Some code ->
          In (Printed (LogDied name)) t
          /\ In (Spawn [sys_executable os; script_path]) t
          /\ processes (pass_state os l sys) !! name
             = match popen os [sys_executable os; script_path] with
               | Returned new_process => Some new_process
               | Raised _ => Some h
               end).
Proof.
  revert sys. induction l as [|[n sc] l IH]; intros sys.
  - exists []. split; [reflexivity|]. intros name script_path h code _ [].
  - destruct (IH (respawned os n sc sys)) as (t & Hrun & Hspec).
    exists (check_trace os n sc sys ++ t). split.
    + cbn [for_each]. unfold bind. rewrite check_process_run, Hrun. reflexivity.
    + intros name script_path h code Hnd Hin Hreg Hdead.
      cbn [map fst] in Hnd. apply NoDup_cons in Hnd as [Hfresh Hnd].
      cbn [pass_state fold_left]. fold (pass_state os l (respawned os n sc sys)).
      destruct Hin as [[= -> ->]|Hin].
      * split; [|split].
        -- apply in_or_app. left. unfold check_trace. rewrite Hreg, Hdead. left. reflexivity.
        -- apply in_or_app. left. unfold check_trace. rewrite Hreg, Hdead.
           right. left. reflexivity.
        -- destruct (pass_state_frame os l (respawned os name script_path sys)) as (_ & _ & Hp).
           rewrite Hp.
           ++ apply (respawned_dead os name script_path sys h code Hreg Hdead).
           ++ intros Hin. apply Hfresh. apply list_elem_of_In. exact Hin.
      * assert (Hne : name <> n).
        { intros ->. apply Hfresh. apply list_elem_of_In.
          apply (in_map fst) in Hin. exact Hin. }
        destruct (respawned_frame os n sc sys) as (_ & _ & Hp).
        destruct (Hspec name script_path h code Hnd Hin) as (H1 & H2 & H3).
        { rewrite Hp by exact Hne. exact Hreg. }
        { exact Hdead. }
        split; [apply in_or_app; right; exact H1|].
        split; [apply in_or_app; right; exact H2|]. exact H3.
Qed.

Lemma restart_scripts_nodup : NoDup (map fst restart_scripts).
Proof.
  apply (bool_decide_unpack _). vm_compute. exact I.
Qed.

Lemma monitor_one_turn os sys :
  running sys = true ->
  exists t,
    monitor_and_restart [os] sys
    = (Returned tt, pass_state os restart_scripts sys, Sleep 3 :: t)
    /\ (forall name script_path h code,
          In (name, script_path) restart_scripts ->
          processes sys !! name = Some h ->
          poll os h = Some code ->
          In (Printed (LogDied name)) t
          /\ In (Spawn [sys_executable os; script_path]) t
          /\ processes (pass_state os restart_scripts sys) !! name
             = match popen os [sys_executable os; script_path] with
               | Returned new_process => Some new_process
               | Raised _ => Some h
               end).
Proof.
  intros Hrun. destruct (for_each_check_run os restart_scripts sys) as (t & Heq & Hspec).
  exists t. split.
  - cbn [monitor_and_restart]. rewrite bind_get, Hrun.
    unfold poll_pass, bind, emit, ret. rewrite Heq. cbn. rewrite app_nil_r. reflexivity.
  - intros name script_path h code. apply Hspec. exact restart_scripts_nodup.
Qed.

(** C6 as stated fails: a turn of the supervision loop that respawns the
    dead voice process replaces its handle and changes nothing else in
    the system; no counter goes up. *)
Lemma respawn_increments_restart_counter_cex :
  let r := monitor_and_restart [os_respawn] sys_voice_dead in
  processes sys_voice_dead !! "VOICE" = Some (mkPopen 10)
  /\ poll os_respawn (mkPopen 10) = Some 1
  /\ state_of r = set_process "VOICE" (mkPopen 11) sys_voice_dead
  /\ ~ (exists k, system_counter k (state_of r) = system_counter k sys_voice_dead + 1).
Proof.
  cbv zeta.
  assert (Hstate : state_of (monitor_and_restart [os_respawn] sys_voice_dead)
                   = set_process "VOICE" (mkPopen 11) sys_voice_dead).
  { destruct (monitor_one_turn os_respawn sys_voice_dead eq_refl) as (t & -> & _).
    unfold state_of. cbn [fst snd]. reflexivity. }
  split; [reflexivity|]. split; [reflexivity|]. split; [exact Hstate|].
  rewrite Hstate. intros (k & Hk). destruct k; vm_compute in Hk; discriminate.
Qed.

(** C6, amended. While supervision is active, one turn of the loop finds
    a registered process that has exited, logs it and spawns it again
    with the interpreter and the script its name had at start-up; when
    the spawn succeeds the new handle replaces the stale one under the
    same name.  The matcher and its counters are untouched: the
    supervisor keeps no restart counter. *)
Theorem dead_process_is_respawned os sys name script_path h code :
  running sys = true ->
  In (name, script_path) restart_scripts ->
  processes sys !! name = Some h ->
  poll os h = Some code ->
  let r := monitor_and_restart [os] sys in
  let command := [sys_executable os; script_path] in
  outcome_of r = Returned tt
  /\ In (name, script_path) start_scripts
  /\ In (Printed (LogDied name)) (trace_of r)
  /\ In (Spawn command) (trace_of r)
  /\ (forall new_process,
        popen os command = Returned new_process ->
        processes (state_of r) !! name = Some new_process)
  /\ (forall e, popen os command = Raised e -> processes (state_of r) !! name = Some h)
  /\ command_matcher (state_of r) = command_matcher sys
  /\ (forall k, system_counter k (state_of r) = system_counter k sys).
Proof.
  intros Hrun Hin Hreg Hdead r command. subst r command.
  destruct (monitor_one_turn os sys Hrun) as (t & -> & Hspec).
  destruct (Hspec name script_path h code Hin Hreg Hdead) as (Hdied & Hspawn & Hnew).
  destruct (pass_state_frame os restart_scripts sys) as (Hm & _ & _).
  unfold outcome_of, trace_of, state_of. cbn [fst snd].
  split; [reflexivity|]. split; [exact Hin|].
  split; [right; exact Hdied|]. split; [right; exact Hspawn|].
  split; [|split; [|split]].
  - intros new_process Hok. rewrite Hnew, Hok. reflexivity.
  - intros e Hfail. rewrite Hnew, Hfail. reflexivity.
  - exact Hm.
  - intros k. unfold system_counter. rewrite Hm. reflexivity.
Qed.

Lemma dead_process_is_respawned_witness :
  processes (state_of (monitor_and_restart [os_respawn] sys_voice_dead)) !! "VOICE"
  = Some (mkPopen 11)
  /\ In (Spawn ["python3"; "voice4.py"])
        (trace_of (monitor_and_restart [os_respawn] sys_voice_dead)).
Proof.
  destruct (dead_process_is_respawned os_respawn sys_voice_dead "VOICE" VOICE_SCRIPT
              (mkPopen 10) 1) as (_ & _ & _ & Hspawn & Hnew & _).
  - reflexivity.
  - left. reflexivity.
  - reflexivity.
  - reflexivity.
  - split; [apply Hnew; reflexivity | exact Hspawn].
Defined.

(** * Further properties of the matcher *)

(** ** Pairs that do not match *)

Lemma match_rule_false_iff s :
  match_rule s = false <->
  truthy (voice_command s) = false \/ truthy (ocr_command s) = false
  \/ voice_command s <> ocr_command s
  \/ timeout s < Z.abs (voice_time s - ocr_time s).
Proof.
  unfold match_rule. rewrite !andb_false_iff, bool_decide_eq_false, Z.leb_gt. tauto.
Qed.

(** Two accepted observations, one per channel, that the rule keeps
    apart, on a matcher with empty slots: in either order both are kept. *)
Lemma unmatched_pair_state arm s raw_voice raw_ocr t_voice t_ocr :
  voice_command s = None ->
  ocr_command s = None ->
  rejected (_clean_command raw_voice) = false ->
  rejected (_clean_command raw_ocr) = false ->
  _clean_command raw_voice <> _clean_command raw_ocr
  \/ timeout s < Z.abs (t_voice - t_ocr) ->
  let kept :=
    mkMatcher (_clean_command raw_voice) t_voice (_clean_command raw_ocr) t_ocr (timeout s)
      (mkStats (voice_commands (stats s) + 1) (ocr_commands (stats s) + 1)
               (matched_commands (stats s)) (executed_commands (stats s))) in
  state_of (add_command arm raw_ocr "OCR" t_ocr
              (state_of (add_command arm raw_voice "VOICE" t_voice s))) = kept
  /\ state_of (add_command arm raw_voice "VOICE" t_voice
                 (state_of (add_command arm raw_ocr "OCR" t_ocr s))) = kept.
Proof.
  intros Hv Ho Hav Hao Hapart kept. subst kept.
  rewrite !add_command_state by assumption. cbv zeta.
  rewrite (match_rule_empty_ocr (record_observation _ "VOICE" _ s)) by exact Ho.
  rewrite (match_rule_empty_voice (record_observation _ "OCR" _ s)) by exact Hv.
  assert (Hno : forall m,
             voice_command m = _clean_command raw_voice ->
             ocr_command m = _clean_command raw_ocr ->
             voice_time m = t_voice -> ocr_time m = t_ocr -> timeout m = timeout s ->
             match_rule m = false).
  { intros m E1 E2 E3 E4 E5. apply match_rule_false_iff.
    rewrite E1, E2, E3, E4, E5. tauto. }
  rewrite !Hno by reflexivity.
  rewrite !record_voice, !record_ocr. split; reflexivity.
Qed.

(** X1. Two accepted observations with different commands, one per
    channel, on a matcher with empty slots: no match fires and nothing is
    dispatched; each slot holds its own command and timestamp, and the
    result is the same in either order of submission. *)
Theorem mismatched_pair_is_kept arm s raw_voice raw_ocr t_voice t_ocr :
  voice_command s = None ->
  ocr_command s = None ->
  rejected (_clean_command raw_voice) = false ->
  rejected (_clean_command raw_ocr) = false ->
  _clean_command raw_voice <> _clean_command raw_ocr ->
  let r1 := add_command arm raw_voice "VOICE" t_voice s in
  let r2 := add_command arm raw_ocr "OCR" t_ocr (state_of r1) in
  let s' := state_of r2 in
  (voice_command s' = _clean_command raw_voice /\ voice_time s' = t_voice)
  /\ (ocr_command s' = _clean_command raw_ocr /\ ocr_time s' = t_ocr)
  /\ matched_commands (stats s') = matched_commands (stats s)
  /\ executed_commands (stats s') = executed_commands (stats s)
  /\ count_dispatches (trace_of r1 ++ trace_of r2) = 0
  /\ state_of (add_command arm raw_voice "VOICE" t_voice
                 (state_of (add_command arm raw_ocr "OCR" t_ocr s))) = s'.
Proof.
  intros Hv Ho Hav Hao Hne r1 r2 s'.
  destruct (unmatched_pair_state arm s raw_voice raw_ocr t_voice t_ocr Hv Ho Hav Hao
              (or_introl Hne)) as [Hvo Hov].
  cbv zeta in Hvo, Hov. subst s' r2 r1. rewrite Hov, Hvo. cbn [voice_command voice_time
    ocr_command ocr_time stats matched_commands executed_commands].
  repeat split.
  (* the traces hold no dispatch *)
  rewrite (add_command_accepted arm raw_voice "VOICE" t_voice s Hav). cbv zeta.
  rewrite (match_rule_empty_ocr (record_observation _ "VOICE" _ s)) by exact Ho.
  unfold state_of at 1, trace_of at 1. cbn [fst snd].
  rewrite (add_command_accepted arm raw_ocr "OCR" t_ocr _ Hao). cbv zeta.
  assert (Hno : match_rule
                  (record_observation (_clean_command raw_ocr) "OCR" t_ocr
                     (record_observation (_clean_command raw_voice) "VOICE" t_voice s))
                = false).
  { apply match_rule_false_iff. rewrite record_voice, record_ocr. cbn. tauto. }
  rewrite Hno. reflexivity.
Qed.

Lemma mismatched_pair_is_kept_witness :
  let s' := state_of (add_command arm_returns "three" "OCR" 1
                        (state_of (add_command arm_returns "two" "VOICE" 0 (init 10)))) in
  (voice_command s' = Some "two" /\ voice_time s' = 0)
  /\ (ocr_command s' = Some "three" /\ ocr_time s' = 1)
  /\ matched_commands (stats s') = 0.
Proof.
  destruct (mismatched_pair_is_kept arm_returns (init 10) "two" "three" 0 1)
    as (Hvoice & Hocr & Hm & _).
  - reflexivity.
  - reflexivity.
  - vm_compute. reflexivity.
  - vm_compute. reflexivity.
  - vm_compute. discriminate.
  - split; [exact Hvoice|]. split; [exact Hocr | exact Hm].
Defined.



(** X3. A second accepted observation from the same channel replaces the
    first in that channel's slot: the slot holds the second command and
    its timestamp, the channel's observation counter has gone up by two,
    the other slot and the match counter are as before. *)
Theorem resubmission_overwrites_slot arm s raw1 raw2 t1 t2 :
  rejected (_clean_command raw1) = false ->
  rejected (_clean_command raw2) = false ->
  (ocr_command s = None ->
   let s' := state_of (add_command arm raw2 "VOICE" t2
                         (state_of (add_command arm raw1 "VOICE" t1 s))) in
   voice_command s' = _clean_command raw2 /\ voice_time s' = t2
   /\ ocr_command s' = None /\ ocr_time s' = ocr_time s
   /\ voice_commands (stats s') = voice_commands (stats s) + 2
   /\ matched_commands (stats s') = matched_commands (stats s))
  /\ (voice_command s = None ->
      let s' := state_of (add_command arm raw2 "OCR" t2
                            (state_of (add_command arm raw1 "OCR" t1 s))) in
      ocr_command s' = _clean_command raw2 /\ ocr_time s' = t2
      /\ voice_command s' = None /\ voice_time s' = voice_time s
      /\ ocr_commands (stats s') = ocr_commands (stats s) + 2
      /\ matched_commands (stats s') = matched_commands (stats s)).
Proof.
  intros H1 H2. split.
  - intros Ho s'. subst s'. rewrite !add_command_state by assumption. cbv zeta.
    rewrite (match_rule_empty_ocr (record_observation _ "VOICE" _ s)) by exact Ho.
    rewrite match_rule_empty_ocr by (rewrite !record_voice; exact Ho).
    rewrite !record_voice. cbn. rewrite Ho. repeat split; lia.
  - intros Hv s'. subst s'. rewrite !add_command_state by assumption. cbv zeta.
    rewrite (match_rule_empty_voice (record_observation _ "OCR" _ s)) by exact Hv.
    rewrite match_rule_empty_voice by (rewrite !record_ocr; exact Hv).
    rewrite !record_ocr. cbn. rewrite Hv. repeat split; lia.
Qed.

Lemma resubmission_overwrites_slot_witness :
  let s' := state_of (add_command arm_returns "3" "VOICE" 7
                        (state_of (add_command arm_returns "two" "VOICE" 5 (init 10)))) in
  voice_command s' = Some "three" /\ voice_time s' = 7
  /\ voice_commands (stats s') = 2 /\ matched_commands (stats s') = 0.
Proof.
  destruct (resubmission_overwrites_slot arm_returns (init 10) "two" "3" 5 7) as [Hvoice _].
  - vm_compute. reflexivity.
  - vm_compute. reflexivity.
  - destruct (Hvoice eq_refl) as (Hc & Ht & _ & _ & Hn & Hm).
    split; [exact Hc|]. split; [exact Ht|]. split; [exact Hn | exact Hm].
Defined.

(** ** Runs of calls *)

Lemma cleanup_old_commands_run now s :
  exists t,
    cleanup_old_commands now s
    = (Returned tt,
       mkMatcher
         (if nonzero (voice_time s) && (timeout s <? now - voice_time s)
          then None else voice_command s)
         (if nonzero (voice_time s) && (timeout s <? now - voice_time s)
          then 0 else voice_time s)
         (if nonzero (ocr_time s) && (timeout s <? now - ocr_time s)
          then None else ocr_command s)
         (if nonzero (ocr_time s) && (timeout s <? now - ocr_time s)
          then 0 else ocr_time s)
         (timeout s) (stats s), t)
    /\ filter (fun e => is_dispatch e = true) t = [].
Proof.
  unfold cleanup_old_commands. run.
  destruct s as [vc vt oc ot T st].
  cbn [voice_time ocr_time timeout voice_command ocr_command stats].
  destruct (nonzero vt && (T <? now - vt)); cbn;
    destruct (nonzero ot && (T <? now - ot)); cbn; eexists; split; reflexivity.
Qed.

Lemma run_calls_cons c calls s :
  outcome_of (run_call c s) = Returned tt ->
  state_of (run_calls (c :: calls) s) = state_of (run_calls calls (state_of (run_call c s)))
  /\ trace_of (run_calls (c :: calls) s)
     = trace_of (run_call c s) ++ trace_of (run_calls calls (state_of (run_call c s)))
  /\ outcome_of (run_calls (c :: calls) s)
     = outcome_of (run_calls calls (state_of (run_call c s))).
Proof.
  cbn [run_calls]. unfold bind, outcome_of, state_of, trace_of.
  destruct (run_call c s) as [[o s1] t1]. cbn [fst snd]. intros ->.
  destruct (run_calls calls s1) as [[o2 s2] t2]. repeat split.
Qed.

Lemma run_call_returns c s : outcome_of (run_call c s) = Returned tt.
Proof.
  destruct c as [arm command source now | now]; cbn [run_call].
  - destruct (rejected (_clean_command command)) eqn:Hrej.
    + rewrite add_command_rejected by exact Hrej. reflexivity.
    + rewrite (add_command_accepted arm command source now s Hrej). cbv zeta.
      destruct (match_rule _); reflexivity.
  - destruct (cleanup_old_commands_run now s) as (t & -> & _). reflexivity.
Qed.

Lemma run_calls_returns calls s : outcome_of (run_calls calls s) = Returned tt.
Proof.
  revert s. induction calls as [|c calls IH]; intros s; [reflexivity|].
  destruct (run_calls_cons c calls s (run_call_returns c s)) as (_ & _ & ->). apply IH.
Qed.

(** A property of states that every call keeps holds after every run. *)
Lemma run_calls_invariant (P : CommandMatcher -> Prop) :
  (forall c s, P s -> P (state_of (run_call c s))) ->
  forall calls s, P s -> P (state_of (run_calls calls s)).
Proof.
  intros Hstep calls. induction calls as [|c calls IH]; intros s Hs; [exact Hs|].
  destruct (run_calls_cons c calls s (run_call_returns c s)) as (-> & _).
  apply IH. apply Hstep. exact Hs.
Qed.

(** ** The counters *)

Lemma pending_range slot : 0 <= pending slot <= 1.
Proof. unfold pending. destruct (truthy slot); lia. Qed.

Lemma counters_ok_record cleaned source now s :
  counters_ok s -> counters_ok (record_observation cleaned source now s).
Proof.
  intros (He & Hv & Ho). unfold record_observation, counters_ok.
  pose proof (pending_range cleaned). pose proof (pending_range (voice_command s)).
  pose proof (pending_range (ocr_command s)).
  destruct (bool_decide (source = "VOICE")); [|destruct (bool_decide (source = "OCR"))];
    cbn; repeat split; lia.
Qed.

Lemma counters_ok_fired ok s :
  counters_ok s -> match_rule s = true -> counters_ok (fired ok s).
Proof.
  intros (He & Hv & Ho) Hrule. unfold match_rule in Hrule.
  apply andb_true_iff in Hrule as [Hrule _]. apply andb_true_iff in Hrule as [Hrule _].
  apply andb_true_iff in Hrule as [Htv Hto].
  unfold pending in Hv, Ho. rewrite Htv in Hv. rewrite Hto in Ho.
  unfold counters_ok. destruct ok; cbn; repeat split; lia.
Qed.

Lemma counters_ok_call c s : counters_ok s -> counters_ok (state_of (run_call c s)).
Proof.
  intros Hs. destruct c as [arm command source now | now]; cbn [run_call].
  - destruct (rejected (_clean_command command)) eqn:Hrej.
    + rewrite add_command_rejected by exact Hrej. exact Hs.
    + rewrite add_command_state by exact Hrej. cbv zeta.
      destruct (match_rule _) eqn:Hrule.
      * apply counters_ok_fired; [apply counters_ok_record; exact Hs | exact Hrule].
      * apply counters_ok_record. exact Hs.
  - destruct (cleanup_old_commands_run now s) as (t & -> & _).
    unfold state_of. cbn [fst snd]. destruct Hs as (He & Hv & Ho).
    pose proof (pending_range (voice_command s)). pose proof (pending_range (ocr_command s)).
    unfold counters_ok. cbn [stats voice_command ocr_command].
    split; [exact He|]. split.
    + destruct (nonzero (voice_time s) && _); [cbn; lia | exact Hv].
    + destruct (nonzero (ocr_time s) && _); [cbn; lia | exact Ho].
Qed.

Lemma timeout_call c s : timeout (state_of (run_call c s)) = timeout s.
Proof.
  destruct c as [arm command source now | now]; cbn [run_call].
  - destruct (rejected (_clean_command command)) eqn:Hrej.
    + rewrite add_command_rejected by exact Hrej. reflexivity.
    + rewrite add_command_state by exact Hrej. cbv zeta.
      assert (Hrec : timeout (record_observation (_clean_command command) source now s)
                     = timeout s).
      { unfold record_observation.
        destruct (bool_decide (source = "VOICE")); [reflexivity|].
        destruct (bool_decide (source = "OCR")); reflexivity. }
      destruct (match_rule _); [|exact Hrec].
      match goal with
      | |- context [fired ?ok ?st] => destruct (fired_slots ok st) as (_ & _ & _ & _ & ->)
      end.
      exact Hrec.
  - destruct (cleanup_old_commands_run now s) as (t & -> & _). reflexivity.
Qed.

(** X4. After any sequence of [add_command] and [cleanup_old_commands]
    calls on a new matcher, with an arm controller that in each call
    returns or raises an instance of [Exception] (what an [ArmDriver]
    is): [0 <= executed_commands <= matched_commands], the match counter
    is at most each channel's observation counter, the timeout is the one
    given to [__init__], and no call raised. *)
Theorem counters_fit_together_in_every_run calls window :
  let s := state_of (run_calls calls (init window)) in
  0 <= executed_commands (stats s) <= matched_commands (stats s)
  /\ matched_commands (stats s) <= voice_commands (stats s)
  /\ matched_commands (stats s) <= ocr_commands (stats s)
  /\ timeout s = window
  /\ outcome_of (run_calls calls (init window)) = Returned tt.
Proof.
  cbv zeta.
  assert (Hok : counters_ok (state_of (run_calls calls (init window)))).
  { apply (run_calls_invariant counters_ok counters_ok_call).
    unfold counters_ok. cbn. lia. }
  destruct Hok as (He & Hv & Ho).
  pose proof (pending_range (voice_command (state_of (run_calls calls (init window))))).
  pose proof (pending_range (ocr_command (state_of (run_calls calls (init window))))).
  split; [exact He|]. split; [lia|]. split; [lia|]. split.
  - apply (run_calls_invariant (fun s => timeout s = window)); [|reflexivity].
    intros c s <-. apply timeout_call.
  - apply run_calls_returns.
Qed.

(** ** What reaches the arm *)

Lemma count_dispatches_app t1 t2 :
  count_dispatches (t1 ++ t2) = count_dispatches t1 + count_dispatches t2.
Proof.
  unfold count_dispatches. rewrite filter_app, length_app. lia.
Qed.

Lemma count_dispatches_lock :
  count_dispatches [LockAcquire] = 0 /\ count_dispatches [LockRelease] = 0.
Proof. split; reflexivity. Qed.

Lemma slot_ok_valid slot : slot_ok slot -> truthy slot = true -> is_valid slot = true.
Proof.
  destruct slot as [c|]; [|discriminate]. cbn. intros Hc _.
  apply bool_decide_eq_true_2. exact Hc.
Qed.

Lemma fired_trace_dispatches arm s :
  slot_ok (voice_command s) -> truthy (voice_command s) = true ->
  Forall arm_call_ok (fired_trace arm s) /\ count_dispatches (fired_trace arm s) = 1.
Proof.
  intros Hok Ht. pose proof (slot_ok_valid _ Hok Ht) as Hvalid.
  unfold fired_trace, dispatch_trace, dispatch_ok.
  destruct (ARM_AVAILABLE arm); [destruct (process_voice_command arm (voice_command s))|];
    (split; [repeat constructor; exact Hvalid | reflexivity]).
Qed.

Lemma observation_trace_quiet cleaned source :
  Forall arm_call_ok (observation_trace cleaned source)
  /\ count_dispatches (observation_trace cleaned source) = 0.
Proof.
  unfold observation_trace.
  destruct (bool_decide (source = "VOICE")); [|destruct (bool_decide (source = "OCR"))];
    (split; [repeat constructor | reflexivity]).
Qed.

Lemma settled_call c s :
  settled s ->
  settled (state_of (run_call c s))
  /\ Forall arm_call_ok (trace_of (run_call c s))
  /\ count_dispatches (trace_of (run_call c s))
     = matched_commands (stats (state_of (run_call c s))) - matched_commands (stats s).
Proof.
  intros (Hq & Hv & Ho). destruct c as [arm command source now | now]; cbn [run_call].
  - destruct (rejected (_clean_command command)) eqn:Hrej.
    + rewrite add_command_rejected by exact Hrej. unfold state_of, trace_of. cbn [fst snd].
      split; [repeat split; assumption|]. split; [repeat constructor|].
      rewrite Z.sub_diag. reflexivity.
    + pose proof (proj1 (rejected_false_iff _) Hrej) as (cmd & Hcmd & Hvalid).
      rewrite (add_command_accepted arm command source now s Hrej). cbv zeta.
      set (s1 := record_observation (_clean_command command) source now s).
      assert (Hs1 : slot_ok (voice_command s1) /\ slot_ok (ocr_command s1)
                    /\ matched_commands (stats s1) = matched_commands (stats s)
                    /\ (match_rule s1 = true -> truthy (voice_command s1) = true)).
      { split; [|split; [|split]].
        - unfold s1, record_observation. rewrite Hcmd.
          destruct (bool_decide (source = "VOICE")); [exact Hvalid|].
          destruct (bool_decide (source = "OCR")); exact Hv.
        - unfold s1, record_observation. rewrite Hcmd.
          destruct (bool_decide (source = "VOICE")); [exact Ho|].
          destruct (bool_decide (source = "OCR")); [exact Hvalid | exact Ho].
        - apply record_observation_matched.
        - unfold match_rule. intros H.
          apply andb_true_iff in H as [H _]. apply andb_true_iff in H as [H _].
          apply andb_true_iff in H as [H _]. exact H. }
      destruct Hs1 as (Hv1 & Ho1 & Hm1 & Ht1).
      destruct (observation_trace_quiet (_clean_command command) source) as [Hobs Hobs0].
      destruct (match_rule s1) eqn:Hrule; unfold state_of, trace_of; cbn [fst snd].
      * destruct (fired_trace_dispatches arm s1 Hv1 (Ht1 eq_refl)) as [Hfa Hfc].
        set (ok := dispatch_ok arm (voice_command s1)).
        destruct (fired_slots ok s1) as (Evc & _ & Eoc & _).
        destruct (fired_stats ok s1) as (Em & _).
        split; [|split].
        -- split; [apply match_rule_empty_voice; exact Evc|].
           rewrite Evc, Eoc. split; exact I.
        -- constructor; [exact I|]. apply Forall_app. split; [|repeat constructor].
           apply Forall_app. split; assumption.
        -- rewrite Em, Hm1.
           change (LockAcquire
                   :: (observation_trace (_clean_command command) source ++ fired_trace arm s1)
                      ++ [LockRelease])
             with ([LockAcquire]
                   ++ (observation_trace (_clean_command command) source ++ fired_trace arm s1)
                   ++ [LockRelease]).
           rewrite !count_dispatches_app, Hobs0, Hfc.
           destruct count_dispatches_lock as [-> ->]. lia.
      * split; [|split].
        -- repeat split; assumption.
        -- constructor; [exact I|]. apply Forall_app. split; [exact Hobs | repeat constructor].
        -- rewrite Hm1.
           change (LockAcquire :: observation_trace (_clean_command command) source
                               ++ [LockRelease])
             with ([LockAcquire] ++ observation_trace (_clean_command command) source
                                 ++ [LockRelease]).
           rewrite !count_dispatches_app, Hobs0.
           destruct count_dispatches_lock as [-> ->]. lia.
  - destruct (cleanup_old_commands_run now s) as (t & -> & Hnone).
    unfold state_of, trace_of. cbn [fst snd]. split; [|split].
    + split; [|split].
      * apply match_rule_false_iff. cbn [voice_command ocr_command voice_time ocr_time timeout].
        apply match_rule_false_iff in Hq.
        destruct (nonzero (voice_time s) && _); [left; reflexivity|].
        destruct (nonzero (ocr_time s) && _); [right; left; reflexivity|].
        exact Hq.
      * cbn [voice_command]. destruct (nonzero (voice_time s) && _); [exact I | exact Hv].
      * cbn [ocr_command]. destruct (nonzero (ocr_time s) && _); [exact I | exact Ho].
    + apply Forall_forall. intros e He. destruct e; try exact I.
      exfalso. assert (Hin : ArmCall command ∈ filter (fun e => is_dispatch e = true) t).
      { apply list_elem_of_filter. split; [reflexivity | exact He]. }
      rewrite Hnone in Hin. inversion Hin.
    + unfold count_dispatches. rewrite Hnone. cbn [stats]. rewrite Z.sub_diag. reflexivity.
Qed.

Lemma settled_run calls s :
  settled s ->
  settled (state_of (run_calls calls s))
  /\ Forall arm_call_ok (trace_of (run_calls calls s))
  /\ count_dispatches (trace_of (run_calls calls s))
     = matched_commands (stats (state_of (run_calls calls s))) - matched_commands (stats s).
Proof.
  revert s. induction calls as [|c calls IH]; intros s Hs.
  - split; [exact Hs|]. split; [constructor|]. cbn. rewrite Z.sub_diag. reflexivity.
  - destruct (run_calls_cons c calls s (run_call_returns c s)) as (-> & -> & _).
    destruct (settled_call c s Hs) as (Hs1 & Ha1 & Hc1).
    destruct (IH _ Hs1) as (Hs2 & Ha2 & Hc2).
    split; [exact Hs2|]. split; [apply Forall_app; split; assumption|].
    rewrite count_dispatches_app, Hc1, Hc2. lia.
Qed.

(** X5. In any sequence of calls on a new matcher, every call into the
    arm controller carries one of the six canonical commands, the number
    of dispatches (arm calls, or sleeps in simulation mode) equals the
    match counter, and no call returns with a match left in the slots. *)
Theorem only_canonical_commands_reach_the_arm calls window :
  let r := run_calls calls (init window) in
  (forall command, In (ArmCall command) (trace_of r) ->
                   exists c, command = Some c /\ c ∈ valid_commands)
  /\ count_dispatches (trace_of r) = matched_commands (stats (state_of r))
  /\ match_rule (state_of r) = false.
Proof.
  cbv zeta.
  destruct (settled_run calls (init window)) as ((Hq & _) & Hall & Hcount).
  { split; [reflexivity|]. split; exact I. }
  split; [|split].
  - intros command Hin. rewrite Forall_forall in Hall.
    specialize (Hall (ArmCall command)). cbn in Hall.
    assert (Hvalid : is_valid command = true).
    { apply Hall. apply list_elem_of_In. exact Hin. }
    destruct command as [c|]; [|discriminate]. exists c. split; [reflexivity|].
    cbn in Hvalid. apply bool_decide_eq_true in Hvalid. exact Hvalid.
  - rewrite Hcount. cbn. lia.
  - exact Hq.
Qed.

Lemma only_canonical_commands_reach_the_arm_witness :
  exists c, Some "two" = Some c /\ c ∈ valid_commands.
Proof.
  apply (proj1 (only_canonical_commands_reach_the_arm
                  [CallAdd arm_returns "two" "VOICE" 0; CallAdd arm_returns "too" "OCR" 3]
                  10)).
  vm_compute. repeat (first [left; reflexivity | right]).
Defined.

(** X6. A submission whose source is neither "VOICE" nor "OCR" (the
    output of the GUI process is monitored under "GUI") leaves a matcher
    without waiting match as it is and dispatches nothing, whether its
    token is valid or not. *)
Theorem other_sources_are_ignored arm raw source now s :
  source <> "VOICE" ->
  source <> "OCR" ->
  match_rule s = false ->
  let r := add_command arm raw source now s in
  state_of r = s
  /\ outcome_of r = Returned tt
  /\ count_dispatches (trace_of r) = 0.
Proof.
  intros Hv Ho Hq r. subst r.
  destruct (rejected (_clean_command raw)) eqn:Hrej.
  - rewrite add_command_rejected by exact Hrej. repeat split.
  - rewrite (add_command_accepted arm raw source now s Hrej). cbv zeta.
    unfold record_observation, observation_trace.
    rewrite !bool_decide_eq_false_2 by assumption. rewrite Hq. repeat split.
Qed.

Lemma other_sources_are_ignored_witness :
  state_of (add_command arm_returns "one" "GUI" 104 heard_one) = heard_one.
Proof.
  apply (other_sources_are_ignored arm_returns "one" "GUI" 104 heard_one).
  - discriminate.
  - discriminate.
  - reflexivity.
Defined.

(** ** Normalisation: what does not matter in a token *)

Lemma lower_char_space c : PyStr.is_space c = true -> PyStr.lower_char c = c.
Proof. destruct c as [[] [] [] [] [] [] [] []]; intros H; try reflexivity; discriminate. Qed.

Lemma lower_upper_char c : PyStr.lower_char (PyText.upper_char c) = PyStr.lower_char c.
Proof. destruct c as [[] [] [] [] [] [] [] []]; reflexivity. Qed.

Lemma lower_lower_char c : PyStr.lower_char (PyStr.lower_char c) = PyStr.lower_char c.
Proof. destruct c as [[] [] [] [] [] [] [] []]; reflexivity. Qed.

Lemma string_app_nil (s : string) : ("" ++ s)%string = s.
Proof. reflexivity. Qed.

Lemma string_app_cons c (a b : string) : (String c a ++ b)%string = String c (a ++ b)%string.
Proof. reflexivity. Qed.

Lemma lower_app a b : PyStr.lower (a ++ b)%string = (PyStr.lower a ++ PyStr.lower b)%string.
Proof.
  induction a as [|c a IH]; [reflexivity|].
  rewrite string_app_cons. cbn [PyStr.lower]. rewrite IH, string_app_cons. reflexivity.
Qed.

Lemma lower_all_space ws : PyText.all_space ws = true -> PyStr.lower ws = ws.
Proof.
  induction ws as [|c ws IH]; cbn; [reflexivity|]. intros H.
  apply andb_true_iff in H as [Hc Hws]. rewrite (lower_char_space c Hc), IH by exact Hws.
  reflexivity.
Qed.

Lemma lower_upper s : PyStr.lower (PyText.upper s) = PyStr.lower s.
Proof. induction s as [|c s IH]; cbn; [reflexivity | rewrite lower_upper_char, IH; reflexivity]. Qed.

Lemma lower_lower s : PyStr.lower (PyStr.lower s) = PyStr.lower s.
Proof. induction s as [|c s IH]; cbn; [reflexivity | rewrite lower_lower_char, IH; reflexivity]. Qed.

Lemma lstrip_all_space ws : PyText.all_space ws = true -> PyStr.lstrip ws = "".
Proof.
  induction ws as [|c ws IH]; cbn; [reflexivity|]. intros H.
  apply andb_true_iff in H as [Hc Hws]. rewrite Hc. apply IH. exact Hws.
Qed.

Lemma lstrip_app a b :
  PyStr.lstrip (a ++ b)%string
  = if PyText.all_space a then PyStr.lstrip b else (PyStr.lstrip a ++ b)%string.
Proof.
  induction a as [|c a IH]; [reflexivity|].
  rewrite string_app_cons. cbn [PyStr.lstrip PyText.all_space].
  destruct (PyStr.is_space c); cbn [andb]; [exact IH | rewrite string_app_cons; reflexivity].
Qed.

Lemma string_app_assoc (a b c : string) : ((a ++ b) ++ c)%string = (a ++ (b ++ c))%string.
Proof.
  induction a as [|x a IH]; [reflexivity|].
  rewrite !string_app_cons, IH. reflexivity.
Qed.

Lemma rev_app_acc s acc : String.rev_app s acc = (String.rev s ++ acc)%string.
Proof.
  unfold String.rev. revert acc. induction s as [|c s IH]; intros acc; [reflexivity|].
  cbn [String.rev_app]. rewrite IH, (IH (String c "")), string_app_assoc. reflexivity.
Qed.

Lemma rev_append a b : String.rev (a ++ b)%string = (String.rev b ++ String.rev a)%string.
Proof.
  rewrite <- rev_app_acc. unfold String.rev. generalize EmptyString.
  induction a as [|c a IH]; intros acc; [reflexivity|].
  rewrite string_app_cons. cbn [String.rev_app]. apply IH.
Qed.

Lemma all_space_app a b :
  PyText.all_space (a ++ b)%string = PyText.all_space a && PyText.all_space b.
Proof.
  induction a as [|c a IH]; [reflexivity|].
  rewrite string_app_cons. cbn [PyText.all_space]. rewrite IH, andb_assoc. reflexivity.
Qed.

Lemma all_space_rev s : PyText.all_space (String.rev s) = PyText.all_space s.
Proof.
  induction s as [|c s IH]; [reflexivity|].
  change (String c s) with ((String c "") ++ s)%string at 1.
  rewrite rev_append, all_space_app, IH. cbn. rewrite andb_true_r, andb_comm. reflexivity.
Qed.

Lemma rstrip_app_space s ws :
  PyText.all_space ws = true -> PyStr.rstrip (s ++ ws)%string = PyStr.rstrip s.
Proof.
  intros H. unfold PyStr.rstrip. rewrite rev_append, lstrip_app, all_space_rev, H.
  reflexivity.
Qed.

Lemma strip_padded ws1 s ws2 :
  PyText.all_space ws1 = true -> PyText.all_space ws2 = true ->
  PyStr.strip (ws1 ++ s ++ ws2)%string = PyStr.strip s.
Proof.
  intros H1 H2. unfold PyStr.strip. rewrite lstrip_app, H1, lstrip_app.
  destruct (PyText.all_space s) eqn:Hs.
  - rewrite (lstrip_all_space ws2 H2), (lstrip_all_space s Hs). reflexivity.
  - apply rstrip_app_space. exact H2.
Qed.

Lemma truthy_app_r a b : PyStr.truthy b = true -> PyStr.truthy (a ++ b)%string = true.
Proof. destruct a; [trivial | reflexivity]. Qed.

Lemma truthy_app_l a b : PyStr.truthy a = true -> PyStr.truthy (a ++ b)%string = true.
Proof. destruct a; [discriminate | reflexivity]. Qed.

Lemma isascii_upper_char c :
  (N_of_ascii c <? 128)%N = true -> (N_of_ascii (PyText.upper_char c) <? 128)%N = true.
Proof. destruct c as [[] [] [] [] [] [] [] []]; intros H; first [reflexivity | discriminate]. Qed.

Lemma isascii_lower_char c :
  (N_of_ascii c <? 128)%N = true -> (N_of_ascii (PyStr.lower_char c) <? 128)%N = true.
Proof. destruct c as [[] [] [] [] [] [] [] []]; intros H; first [reflexivity | discriminate]. Qed.

Lemma isascii_upper s : PyText.isascii s = true -> PyText.isascii (PyText.upper s) = true.
Proof.
  induction s as [|c s IH]; cbn; [reflexivity|]. intros H.
  apply andb_true_iff in H as [Hc Hs]. rewrite (isascii_upper_char c Hc), (IH Hs). reflexivity.
Qed.

Lemma isascii_lower s : PyText.isascii s = true -> PyText.isascii (PyStr.lower s) = true.
Proof.
  induction s as [|c s IH]; cbn; [reflexivity|]. intros H.
  apply andb_true_iff in H as [Hc Hs]. rewrite (isascii_lower_char c Hc), (IH Hs). reflexivity.
Qed.

(** X7. For a token of ASCII characters: leading and trailing white
    space around the non-empty token, and the case of its letters, do not
    change what [_clean_command] returns.  (Outside ASCII the case part
    is not true of [str.upper]: the long s, U+017F, is upper-cased to
    "S".) *)
Theorem padding_and_case_do_not_matter raw :
  PyText.isascii raw = true ->
  (forall ws1 ws2,
      PyText.all_space ws1 = true ->
      PyText.all_space ws2 = true ->
      PyStr.truthy raw = true ->
      _clean_command (ws1 ++ raw ++ ws2)%string = _clean_command raw)
  /\ _clean_command (PyText.upper raw) = _clean_command raw
  /\ _clean_command (PyStr.lower raw) = _clean_command raw
  /\ PyText.isascii (PyText.upper raw) = true
  /\ PyText.isascii (PyStr.lower raw) = true.
Proof.
  intros Hascii. split; [|split; [|split; [|split]]].
  - intros ws1 ws2 H1 H2 Hraw. unfold _clean_command.
    rewrite (truthy_app_r ws1 _ (truthy_app_l raw ws2 Hraw)), Hraw. cbv [negb].
    rewrite !lower_app, (lower_all_space ws1 H1), (lower_all_space ws2 H2).
    rewrite (strip_padded ws1 (PyStr.lower raw) ws2 H1 H2). reflexivity.
  - unfold _clean_command. rewrite lower_upper.
    destruct raw; reflexivity.
  - unfold _clean_command. rewrite lower_lower.
    destruct raw; reflexivity.
  - apply isascii_upper. exact Hascii.
  - apply isascii_lower. exact Hascii.
Qed.

Lemma padding_and_case_do_not_matter_witness :
  _clean_command "  Too " = _clean_command "Too"
  /\ _clean_command (PyText.upper "Too") = _clean_command "Too".
Proof.
  destruct (padding_and_case_do_not_matter "Too") as (Hpad & Hup & _).
  - reflexivity.
  - split.
    + apply (Hpad "  " " "); reflexivity.
    + exact Hup.
Defined.

(** X8. [_clean_command] returns a canonical command unchanged, so
    cleaning an accepted token twice gives the same command as cleaning
    it once; no key of the correction table is itself a canonical
    command. *)
Theorem normalisation_is_idempotent :
  (forall c, c ∈ valid_commands -> _clean_command c = Some c)
  /\ (forall raw c,
         rejected (_clean_command raw) = false ->
         _clean_command raw = Some c ->
         _clean_command c = Some c /\ rejected (_clean_command c) = false)
  /\ (forall key, is_Some (mappings !! key) -> key ∉ valid_commands).
Proof.
  assert (Hfix : forall c, c ∈ valid_commands -> _clean_command c = Some c).
  { unfold valid_commands. intros c H.
    repeat (apply elem_of_cons in H as [->|H]; [vm_compute; reflexivity|]).
    inversion H. }
  split; [exact Hfix|]. split.
  - intros raw c Hacc Hc.
    apply rejected_false_iff in Hacc as (c' & Hc' & Hvalid).
    rewrite Hc in Hc'. injection Hc' as <-.
    rewrite (Hfix c Hvalid). split; [reflexivity|].
    apply rejected_false_iff. eauto.
  - intros key [v Hkey] Hvalid. revert Hkey. unfold valid_commands in Hvalid.
    repeat (apply elem_of_cons in Hvalid as [->|Hvalid]; [vm_compute; discriminate|]).
    inversion Hvalid.
Qed.

Lemma normalisation_is_idempotent_witness :
  _clean_command "two" = Some "two"
  /\ (_clean_command "two" = Some "two" /\ rejected (_clean_command "two") = false).
Proof.
  destruct normalisation_is_idempotent as (Hfix & Hidem & _). split.
  - apply Hfix. apply (bool_decide_unpack _). vm_compute. exact I.
  - apply (Hidem " TOO " "two"); vm_compute; reflexivity.
Defined.

(** * The output monitor *)

Lemma split_go_no_occurrence sep s :
  PyText.contains sep s = false -> PyText.split_go sep 0 s = (s, []).
Proof.
  induction s as [|c s IH]; [reflexivity|].
  cbn [PyText.contains PyText.split_go]. intros H.
  apply orb_false_iff in H as [Hp Hc]. rewrite Hp, (IH Hc). reflexivity.
Qed.

Lemma prefix_append sep rest : String.prefix sep (sep ++ rest)%string = true.
Proof.
  induction sep as [|c sep IH]; [destruct rest; reflexivity|].
  rewrite string_app_cons. cbn [String.prefix].
  destruct (ascii_dec c c) as [_|Hne]; [exact IH | contradiction].
Qed.

Lemma split_go_skip sep t rest :
  PyText.split_go sep (String.length t) (t ++ rest)%string = PyText.split_go sep 0 rest.
Proof.
  induction t as [|c t IH]; [reflexivity|].
  rewrite string_app_cons. cbn [String.length PyText.split_go]. exact IH.
Qed.

(** Splitting a string that starts with the separator: an empty first
    part, then the parts of the rest. *)
Lemma split_separator_first c sep rest :
  PyText.split (String c sep) (String c sep ++ rest)%string
  = "" :: PyText.split (String c sep) rest.
Proof.
  unfold PyText.split. rewrite string_app_cons. cbn [PyText.split_go].
  rewrite <- string_app_cons, prefix_append.
  replace (String.length (String c sep) - 1)%nat with (String.length sep)
    by (cbn [String.length]; lia).
  rewrite split_go_skip. reflexivity.
Qed.

Lemma split_marker_first rest :
  PyText.contains COMMAND_MARKER rest = false ->
  PyText.split COMMAND_MARKER (COMMAND_MARKER ++ rest)%string = [""; rest].
Proof.
  intros H. unfold COMMAND_MARKER in *. rewrite split_separator_first.
  unfold PyText.split. rewrite (split_go_no_occurrence _ _ H). reflexivity.
Qed.

Lemma contains_marker_first rest :
  PyText.contains COMMAND_MARKER (COMMAND_MARKER ++ rest)%string = true.
Proof.
  unfold COMMAND_MARKER. rewrite string_app_cons. cbn [PyText.contains].
  rewrite <- string_app_cons, prefix_append. reflexivity.
Qed.

Lemma add_command_returns arm command source now s :
  outcome_of (add_command arm command source now s) = Returned tt.
Proof. apply (run_call_returns (CallAdd arm command source now) s). Qed.

(** The run of [_process_line] on a line without the marker. *)
Lemma _process_line_plain arm source line now s :
  PyText.contains COMMAND_MARKER line = false ->
  _process_line arm source line now s
  = (Returned (if _is_noise line then None else Some (PyText.upper source, line)), s, []).
Proof.
  intros H. unfold _process_line. rewrite H. reflexivity.
Qed.

(** The run of [_process_line] on a line that starts with the marker. *)
Lemma _process_line_command arm source rest now s :
  PyText.contains COMMAND_MARKER rest = false ->
  let line := (COMMAND_MARKER ++ rest)%string in
  let r := add_command arm (PyStr.strip rest) (PyText.upper source) now s in
  _process_line arm source line now s
  = (Returned (if _is_noise line then None else Some (PyText.upper source, line)),
     state_of r, trace_of r).
Proof.
  intros H line r. subst line r. unfold _process_line.
  rewrite contains_marker_first, (split_marker_first rest H).
  cbn [lookup list_lookup]. 
  pose proof (add_command_returns arm (PyStr.strip rest) (PyText.upper source) now s) as Hret.
  unfold bind, try_except, ret, outcome_of, state_of, trace_of in *.
  destruct (add_command arm (PyStr.strip rest) (PyText.upper source) now s) as [[o s1] t1].
  cbn [fst snd] in *. rewrite Hret. rewrite app_nil_r. reflexivity.
Qed.

(** X9. A line without the marker "[COMMAND]" never reaches the
    matcher: [_process_line] leaves the matcher as it is, with no event,
    and echoes the line with its upper-cased source unless the line
    holds one of the noise words. *)
Theorem plain_lines_never_reach_the_matcher arm source line now s :
  PyText.contains COMMAND_MARKER line = false ->
  let r := _process_line arm source line now s in
  state_of r = s
  /\ trace_of r = []
  /\ (_is_noise line = true -> outcome_of r = Returned None)
  /\ (_is_noise line = false -> outcome_of r = Returned (Some (PyText.upper source, line))).
Proof.
  intros H r. subst r. rewrite (_process_line_plain arm source line now s H).
  unfold state_of, trace_of, outcome_of. cbn [fst snd].
  split; [reflexivity|]. split; [reflexivity|].
  split; intros ->; reflexivity.
Qed.

Lemma plain_lines_never_reach_the_matcher_witness :
  state_of (_process_line arm_returns "voice" "Loading model one" 100 heard_one) = heard_one
  /\ outcome_of (_process_line arm_returns "voice" "Loading model one" 100 heard_one)
     = Returned None.
Proof.
  destruct (plain_lines_never_reach_the_matcher arm_returns "voice" "Loading model one"
              100 heard_one) as (Hs & _ & Hnoise & _).
  - vm_compute. reflexivity.
  - split; [exact Hs | apply Hnoise; vm_compute; reflexivity].
Defined.

(** X10. For a line that starts with "[COMMAND]" and holds no second
    marker, [_process_line] does to the matcher exactly what
    [add_command] does with the stripped rest of the line and the
    upper-cased source; the line is echoed unless it is noise, which
    does not stop the submission. *)
Theorem command_line_is_submitted arm source rest now s :
  PyText.contains COMMAND_MARKER rest = false ->
  let line := (COMMAND_MARKER ++ rest)%string in
  let r := _process_line arm source line now s in
  let submitted := add_command arm (PyStr.strip rest) (PyText.upper source) now s in
  state_of r = state_of submitted
  /\ trace_of r = trace_of submitted
  /\ (exists echo, outcome_of r = Returned echo
                   /\ (echo = None <-> _is_noise line = true)).
Proof.
  intros H line r submitted. subst r submitted line.
  rewrite (_process_line_command arm source rest now s H).
  unfold state_of at 1, trace_of at 1, outcome_of. cbn [fst snd].
  split; [reflexivity|]. split; [reflexivity|].
  eexists. split; [reflexivity|].
  destruct (_is_noise _); split; intros E; try reflexivity; discriminate.
Qed.

Lemma command_line_is_submitted_witness :
  state_of (_process_line arm_returns "ocr" "[COMMAND] 1" 103 heard_one)
  = state_of (add_command arm_returns "1" "OCR" 103 heard_one).
Proof.
  destruct (command_line_is_submitted arm_returns "ocr" " 1" 103 heard_one) as (Hs & _).
  - vm_compute. reflexivity.
  - exact Hs.
Defined.

(** X11. When the voice process prints a command line and the OCR
    process prints one with the same canonical command, within the
    timeout, to a matcher with empty slots, the two calls of
    [_process_line] end with one more match, both slots empty and
    exactly one dispatch; with an arm controller present the arm is
    called with the canonical command. *)
Theorem announced_pair_dispatches_once arm s rest_voice rest_ocr t_voice t_ocr :
  PyText.contains COMMAND_MARKER rest_voice = false ->
  PyText.contains COMMAND_MARKER rest_ocr = false ->
  voice_command s = None ->
  ocr_command s = None ->
  rejected (_clean_command (PyStr.strip rest_voice)) = false ->
  _clean_command (PyStr.strip rest_voice) = _clean_command (PyStr.strip rest_ocr) ->
  Z.abs (t_voice - t_ocr) <= timeout s ->
  let r1 := _process_line arm "VOICE" (COMMAND_MARKER ++ rest_voice)%string t_voice s in
  let r2 := _process_line arm "OCR" (COMMAND_MARKER ++ rest_ocr)%string t_ocr (state_of r1) in
  matched_commands (stats (state_of r2)) = matched_commands (stats s) + 1
  /\ voice_command (state_of r2) = None
  /\ ocr_command (state_of r2) = None
  /\ count_dispatches (trace_of r1 ++ trace_of r2) = 1
  /\ (ARM_AVAILABLE arm = true ->
      In (ArmCall (_clean_command (PyStr.strip rest_voice))) (trace_of r2)).
Proof.
  intros Hmv Hmo Hv Ho Hacc Heq Hdt.
  assert (Hacc' : rejected (_clean_command (PyStr.strip rest_ocr)) = false)
    by (rewrite <- Heq; exact Hacc).
  pose proof (accepted_truthy _ Hacc) as Ht.
  pose proof (proj1 (rejected_false_iff _) Hacc) as (cmd & Hcmd & Hvalid).
  set (s1 := record_observation (_clean_command (PyStr.strip rest_voice)) "VOICE" t_voice s).
  set (s2 := record_observation (_clean_command (PyStr.strip rest_ocr)) "OCR" t_ocr s1).
  assert (Hs2 : voice_command s2 = _clean_command (PyStr.strip rest_voice)
                /\ matched_commands (stats s2) = matched_commands (stats s)).
  { unfold s2, s1. rewrite record_voice, record_ocr. split; reflexivity. }
  destruct Hs2 as [Hvc2 Hm2].
  assert (Hrule : match_rule s2 = true).
  { unfold s2, s1. rewrite record_voice, record_ocr.
    apply (match_rule_pair _ (_clean_command (PyStr.strip rest_voice)) t_voice t_ocr);
      try reflexivity; try assumption. cbn. symmetry. exact Heq. }
  assert (E1 : exists echo,
             _process_line arm "VOICE" (COMMAND_MARKER ++ rest_voice)%string t_voice s
             = (Returned echo, s1,
                LockAcquire
                :: observation_trace (_clean_command (PyStr.strip rest_voice)) "VOICE"
                   ++ [LockRelease])).
  { rewrite (_process_line_command arm "VOICE" rest_voice t_voice s Hmv).
    change (PyText.upper "VOICE") with "VOICE".
    rewrite (add_command_accepted arm _ "VOICE" t_voice s Hacc). cbv zeta. fold s1.
    rewrite (match_rule_empty_ocr s1) by exact Ho. eexists. reflexivity. }
  assert (E2 : exists echo,
             _process_line arm "OCR" (COMMAND_MARKER ++ rest_ocr)%string t_ocr s1
             = (Returned echo, fired (dispatch_ok arm (voice_command s2)) s2,
                LockAcquire
                :: (observation_trace (_clean_command (PyStr.strip rest_ocr)) "OCR"
                    ++ fired_trace arm s2) ++ [LockRelease])).
  { rewrite (_process_line_command arm "OCR" rest_ocr t_ocr s1 Hmo).
    change (PyText.upper "OCR") with "OCR".
    rewrite (add_command_accepted arm _ "OCR" t_ocr s1 Hacc'). cbv zeta. fold s2.
    rewrite Hrule. eexists. reflexivity. }
  destruct E1 as [echo1 E1]. destruct E2 as [echo2 E2].
  intros r1 r2.
  assert (Hr1 : state_of r1 = s1
                /\ trace_of r1
                   = LockAcquire
                     :: observation_trace (_clean_command (PyStr.strip rest_voice)) "VOICE"
                        ++ [LockRelease])
    by (subst r1; rewrite E1; split; reflexivity).
  destruct Hr1 as [Hst1 Htr1].
  assert (Hr2 : state_of r2 = fired (dispatch_ok arm (voice_command s2)) s2
                /\ trace_of r2
                   = LockAcquire
                     :: (observation_trace (_clean_command (PyStr.strip rest_ocr)) "OCR"
                         ++ fired_trace arm s2) ++ [LockRelease])
    by (subst r2; rewrite Hst1, E2; split; reflexivity).
  destruct Hr2 as [Hst2 Htr2]. rewrite Hst2, Htr2, Htr1. clear Hst1 Htr1 Hst2 Htr2 E1 E2.
  destruct (fired_stats (dispatch_ok arm (voice_command s2)) s2) as (-> & _).
  destruct (fired_slots (dispatch_ok arm (voice_command s2)) s2) as (-> & _ & -> & _).
  assert (Hok2 : slot_ok (voice_command s2)) by (rewrite Hvc2, Hcmd; exact Hvalid).
  assert (Ht2 : truthy (voice_command s2) = true) by (rewrite Hvc2; exact Ht).
  destruct (fired_trace_dispatches arm s2 Hok2 Ht2) as [_ Hone].
  split; [rewrite Hm2; reflexivity|]. split; [reflexivity|]. split; [reflexivity|]. split.
  - change (LockAcquire :: observation_trace ?c ?src ++ [LockRelease])
      with ([LockAcquire] ++ observation_trace c src ++ [LockRelease]).
    rewrite !count_dispatches_app.
    change (count_dispatches
              (LockAcquire
               :: (observation_trace (_clean_command (PyStr.strip rest_ocr)) "OCR"
                   ++ fired_trace arm s2) ++ [LockRelease]))
      with (count_dispatches
              ([LockAcquire]
               ++ (observation_trace (_clean_command (PyStr.strip rest_ocr)) "OCR"
                   ++ fired_trace arm s2) ++ [LockRelease])).
    rewrite !count_dispatches_app, Hone.
    rewrite !(proj2 (observation_trace_quiet _ _)).
    destruct count_dispatches_lock as [-> ->]. reflexivity.
  - intros Havail. right. apply in_or_app. left. apply in_or_app. right.
    unfold fired_trace, dispatch_trace. rewrite Havail, Hvc2. right.
    destruct (process_voice_command arm _); right; left; reflexivity.
Qed.

Lemma announced_pair_dispatches_once_witness :
  let r1 := _process_line arm_returns "VOICE" "[COMMAND] two" 0 (init 10) in
  let r2 := _process_line arm_returns "OCR" "[COMMAND] too" 3 (state_of r1) in
  matched_commands (stats (state_of r2)) = 1
  /\ count_dispatches (trace_of r1 ++ trace_of r2) = 1
  /\ In (ArmCall (Some "two")) (trace_of r2).
Proof.
  destruct (announced_pair_dispatches_once arm_returns (init 10) " two" " too" 0 3)
    as (Hm & _ & _ & Hc & Harm).
  - vm_compute. reflexivity.
  - vm_compute. reflexivity.
  - reflexivity.
  - reflexivity.
  - vm_compute. reflexivity.
  - vm_compute. reflexivity.
  - simpl. lia.
  - split; [exact Hm|]. split; [exact Hc|]. apply Harm. reflexivity.
Defined.

(** * The supervisor over many turns *)

Lemma respawned_dom os name script_path sys :
  dom (processes (respawned os name script_path sys)) = dom (processes sys).
Proof.
  unfold respawned. destruct (processes sys !! name) as [process|] eqn:Hreg; [|reflexivity].
  destruct (poll os process); [|reflexivity].
  destruct (popen os [sys_executable os; script_path]); [|reflexivity].
  cbn. apply dom_insert_lookup_L. rewrite Hreg. eauto.
Qed.

Lemma respawned_alive os name script_path sys other h :
  processes sys !! other = Some h ->
  poll os h = None ->
  processes (respawned os name script_path sys) !! other = Some h.
Proof.
  intros Hreg Halive. destruct (decide (other = name)) as [->|Hne].
  - unfold respawned. rewrite Hreg, Halive. exact Hreg.
  - destruct (respawned_frame os name script_path sys) as (_ & _ & Hp).
    rewrite Hp by exact Hne. exact Hreg.
Qed.

Lemma pass_state_keeps os l sys :
  dom (processes (pass_state os l sys)) = dom (processes sys)
  /\ (forall name h, processes sys !! name = Some h -> poll os h = None ->
                     processes (pass_state os l sys) !! name = Some h).
Proof.
  revert sys. induction l as [|[n sc] l IH]; intros sys; [split; [reflexivity | trivial]|].
  cbn [pass_state fold_left]. fold (pass_state os l (respawned os n sc sys)).
  destruct (IH (respawned os n sc sys)) as [Hdom Halive]. split.
  - rewrite Hdom. apply respawned_dom.
  - intros name h Hreg Hpoll. apply Halive; [|exact Hpoll].
    apply respawned_alive; assumption.
Qed.

Lemma monitor_and_restart_cons os oss sys :
  running sys = true ->
  outcome_of (monitor_and_restart (os :: oss) sys)
  = outcome_of (monitor_and_restart oss (pass_state os restart_scripts sys))
  /\ state_of (monitor_and_restart (os :: oss) sys)
     = state_of (monitor_and_restart oss (pass_state os restart_scripts sys)).
Proof.
  intros Hrun. destruct (for_each_check_run os restart_scripts sys) as (t & Heq & _).
  cbn [monitor_and_restart]. rewrite bind_get, Hrun.
  unfold poll_pass, bind, emit. rewrite Heq. unfold outcome_of, state_of.
  destruct (monitor_and_restart oss (pass_state os restart_scripts sys)) as [[o s2] t2].
  split; reflexivity.
Qed.

Lemma monitor_and_restart_stopped oss sys :
  running sys = false -> monitor_and_restart oss sys = (Returned tt, sys, []).
Proof.
  intros Hrun. destruct oss as [|os oss]; [reflexivity|].
  cbn [monitor_and_restart]. rewrite bind_get, Hrun. reflexivity.
Qed.

Lemma monitor_and_restart_keeps oss sys :
  let r := monitor_and_restart oss sys in
  outcome_of r = Returned tt
  /\ dom (processes (state_of r)) = dom (processes sys)
  /\ command_matcher (state_of r) = command_matcher sys
  /\ running (state_of r) = running sys
  /\ (forall name h,
         processes sys !! name = Some h ->
         (forall os, In os oss -> poll os h = None) ->
         processes (state_of r) !! name = Some h)
  /\ (running sys = false -> state_of r = sys /\ trace_of r = []).
Proof.
  cbv zeta. revert sys. induction oss as [|os oss IH]; intros sys.
  - repeat split; trivial.
  - destruct (running sys) eqn:Hrun.
    + destruct (monitor_and_restart_cons os oss sys Hrun) as (-> & ->).
      destruct (IH (pass_state os restart_scripts sys)) as (Ho & Hd & Hm & Hr & Ha & _).
      destruct (pass_state_frame os restart_scripts sys) as (Hm' & Hr' & _).
      destruct (pass_state_keeps os restart_scripts sys) as (Hd' & Ha').
      split; [exact Ho|]. split; [congruence|]. split; [congruence|].
      split; [congruence|]. split; [|discriminate].
      intros name h Hreg Halive. apply Ha.
      * apply Ha'; [exact Hreg|]. apply Halive. left. reflexivity.
      * intros os' Hin. apply Halive. right. exact Hin.
    + rewrite (monitor_and_restart_stopped (os :: oss) sys Hrun).
      repeat split; trivial.
Qed.

(** X12. Over any number of turns of [monitor_and_restart] the set of
    registered names stays the same, the matcher and the [running] flag
    are untouched, no exception leaves the loop, and a process that no
    poll finds exited keeps its handle; when [running] is false the loop
    does nothing at all. *)
Theorem supervision_keeps_the_registry oss sys :
  let r := monitor_and_restart oss sys in
  outcome_of r = Returned tt
  /\ dom (processes (state_of r)) = dom (processes sys)
  /\ command_matcher (state_of r) = command_matcher sys
  /\ running (state_of r) = running sys
  /\ (forall name h,
         processes sys !! name = Some h ->
         (forall os, In os oss -> poll os h = None) ->
         processes (state_of r) !! name = Some h)
  /\ (running sys = false -> state_of r = sys /\ trace_of r = []).
Proof. apply monitor_and_restart_keeps. Qed.

Lemma supervision_keeps_the_registry_witness :
  processes (state_of (monitor_and_restart [os_respawn; os_respawn]
                         (set_process "OCR" (mkPopen 20) sys_voice_dead))) !! "OCR"
  = Some (mkPopen 20).
Proof.
  destruct (supervision_keeps_the_registry [os_respawn; os_respawn]
              (set_process "OCR" (mkPopen 20) sys_voice_dead)) as (_ & _ & _ & _ & Halive & _).
  apply Halive.
  - reflexivity.
  - intros os [<-|[<-|[]]]; reflexivity.
Defined.

(** * Start-up *)

(** The process [start_process] registers: none when the script is
    missing or the spawn raises. *)
Lemma start_process_run os name script_path sys :
  exists t,
    start_process os name script_path sys
    = (Returned tt,
       (if path_exists os script_path then
          match popen os [sys_executable os; script_path] with
          | Returned process => set_process name process sys
          | Raised _ => sys
          end
        else sys), t).
Proof.
  unfold start_process. destruct (path_exists os script_path); [|eexists; reflexivity].
  run. destruct (popen os [sys_executable os; script_path]); eexists; reflexivity.
Qed.

Lemma for_each_start_run os l sys :
  exists t,
    for_each l (fun '(name, script_path) => start_process os name script_path) sys
    = (Returned tt, start_state os l sys, t).
Proof.
  revert sys. induction l as [|[n sc] l IH]; intros sys; [eexists; reflexivity|].
  destruct (start_process_run os n sc sys) as (t1 & E1).
  cbn [for_each start_state fold_left]. unfold bind. rewrite E1.
  match goal with
  | |- context [for_each l _ ?s1] => destruct (IH s1) as (t2 & E2); rewrite E2
  end.
  eexists. reflexivity.
Qed.

Lemma start_everything_run os sys :
  exists t,
    start_everything os sys
    = (Returned tt, set_running true (start_state os start_scripts sys), t).
Proof.
  unfold start_everything. destruct (for_each_start_run os start_scripts sys) as (t & E).
  unfold bind, modify. rewrite E. eexists. reflexivity.
Qed.

Lemma script_of_known :
  script_of "VOICE" = Some VOICE_SCRIPT
  /\ script_of "OCR" = Some OCR_SCRIPT
  /\ script_of "GUI" = Some GUI_SCRIPT.
Proof. repeat split. Qed.

Lemma script_of_unknown name :
  "VOICE" <> name -> "OCR" <> name -> "GUI" <> name -> script_of name = None.
Proof.
  intros Hv Ho Hg. unfold script_of, start_scripts. cbn [List.find fst].
  rewrite !bool_decide_eq_false_2 by assumption. reflexivity.
Qed.

Ltac lookup_registry :=
  cbn [processes set_process init_system];
  repeat (rewrite lookup_insert_ne by congruence);
  rewrite ?lookup_insert_eq, ?lookup_empty.

Lemma start_state_lookup os name :
  processes (start_state os start_scripts init_system) !! name = started os name.
Proof.
  destruct script_of_known as (Ev & Eo & Eg).
  unfold started, start_state, start_scripts. cbn [fold_left].
  destruct (decide ("VOICE" = name)) as [<-|Hv]; [|destruct (decide ("OCR" = name)) as [<-|Ho];
    [|destruct (decide ("GUI" = name)) as [<-|Hg]]].
  - rewrite Ev.
    destruct (path_exists os VOICE_SCRIPT), (path_exists os OCR_SCRIPT),
      (path_exists os GUI_SCRIPT);
      repeat match goal with
             | |- context [popen os ?a] => destruct (popen os a)
             end; lookup_registry; reflexivity.
  - rewrite Eo.
    destruct (path_exists os VOICE_SCRIPT), (path_exists os OCR_SCRIPT),
      (path_exists os GUI_SCRIPT);
      repeat match goal with
             | |- context [popen os ?a] => destruct (popen os a)
             end; lookup_registry; reflexivity.
  - rewrite Eg.
    destruct (path_exists os VOICE_SCRIPT), (path_exists os OCR_SCRIPT),
      (path_exists os GUI_SCRIPT);
      repeat match goal with
             | |- context [popen os ?a] => destruct (popen os a)
             end; lookup_registry; reflexivity.
  - rewrite (script_of_unknown name Hv Ho Hg).
    destruct (path_exists os VOICE_SCRIPT), (path_exists os OCR_SCRIPT),
      (path_exists os GUI_SCRIPT);
      repeat match goal with
             | |- context [popen os ?a] => destruct (popen os a)
             end; lookup_registry; reflexivity.
Qed.

Lemma start_state_frame os l sys :
  command_matcher (start_state os l sys) = command_matcher sys
  /\ running (start_state os l sys) = running sys.
Proof.
  revert sys. induction l as [|[n sc] l IH]; intros sys; [split; reflexivity|].
  cbn [start_state fold_left].
  match goal with
  | |- context [fold_left _ l ?s1] => destruct (IH s1) as [Hm Hr]
  end.
  unfold start_state in Hm, Hr. rewrite Hm, Hr.
  destruct (path_exists os sc); [|split; reflexivity].
  destruct (popen os [sys_executable os; sc]); split; reflexivity.
Qed.

(** X13. [start_everything] on a new system registers under each
    script name the process spawned for it when the script file exists
    and the spawn returns, and registers nothing else; a missing file or
    a failed spawn for one script does not stop the others; afterwards
    [running] is true and the matcher is new, with its timeout of 15. *)
Theorem start_everything_registers_what_started os :
  let r := start_everything os init_system in
  outcome_of r = Returned tt
  /\ running (state_of r) = true
  /\ command_matcher (state_of r) = init 15
  /\ (forall name, processes (state_of r) !! name = started os name).
Proof.
  cbv zeta. destruct (start_everything_run os init_system) as (t & ->).
  unfold outcome_of, state_of. cbn [fst snd].
  split; [reflexivity|]. split; [reflexivity|]. split.
  - cbn [command_matcher set_running].
    apply (start_state_frame os start_scripts init_system).
  - intros name. apply start_state_lookup.
Qed.

(** X14. After [start_everything] and any number of turns of
    [monitor_and_restart], a name is registered exactly when its process
    started at start-up: a channel whose script was missing or failed to
    spawn is never started later, and a started one is never dropped. *)
Theorem a_channel_missing_at_start_stays_missing os oss name :
  let started_system := state_of (start_everything os init_system) in
  let r := monitor_and_restart oss started_system in
  is_Some (processes (state_of r) !! name) <-> is_Some (started os name).
Proof.
  cbv zeta. destruct (start_everything_run os init_system) as (t & ->).
  unfold state_of at 2. cbn [fst snd].
  set (sys1 := set_running true (start_state os start_scripts init_system)).
  destruct (monitor_and_restart_keeps oss sys1) as (_ & Hdom & _).
  rewrite <- !elem_of_dom, Hdom, elem_of_dom.
  unfold sys1. cbn [processes set_running]. rewrite start_state_lookup. reflexivity.
Qed.

Lemma a_channel_missing_at_start_stays_missing_witness :
  is_Some (processes
             (state_of (monitor_and_restart [os_respawn; os_respawn]
                          (state_of (start_everything os_respawn init_system)))) !! "VOICE").
Proof.
  apply (proj2 (a_channel_missing_at_start_stays_missing os_respawn
                  [os_respawn; os_respawn] "VOICE")).
  exists (mkPopen 11). reflexivity.
Defined.

(** * More of the dashboard *)

Lemma check_command_match_run match_time d :
  Dashboard.check_command_match match_time d
  = if dashboard_fires d
    then (Returned tt,
          Dashboard.reset_current
            (Dashboard.append_match (match_time, Dashboard.current_voice_command d) d),
          [Printed (LogGuiMatch None)])
    else (Returned tt, d, []).
Proof.
  unfold dashboard_fires, Dashboard.check_command_match. rewrite bind_get.
  destruct (Dashboard.current_voice_time d) as [tv|];
    [destruct (Dashboard.current_ocr_time d) as [to|]|]; try reflexivity.
  destruct (truthy (Dashboard.current_voice_command d)); [|reflexivity].
  destruct (truthy (Dashboard.current_ocr_command d)); [|reflexivity].
  destruct (bool_decide (Dashboard.current_voice_command d = Dashboard.current_ocr_command d));
    [|reflexivity].
  destruct (Z.abs (tv - to) <=? Dashboard.window); reflexivity.
Qed.

Lemma process_gui_message_run ty data current_time match_time d :
  let d1 :=
    match ty with
    | Dashboard.voice_command_msg => Dashboard.set_voice data current_time d
    | Dashboard.ocr_command_msg => Dashboard.set_ocr data current_time d
    | Dashboard.reset_msg => Dashboard.reset_current d
    | Dashboard.other_msg => d
    end in
  outcome_of (Dashboard.process_gui_message ty data current_time match_time d) = Returned tt
  /\ state_of (Dashboard.process_gui_message ty data current_time match_time d)
     = if dashboard_fires d1
       then Dashboard.reset_current
              (Dashboard.append_match (match_time, Dashboard.current_voice_command d1) d1)
       else d1.
Proof.
  intros d1. subst d1. unfold Dashboard.process_gui_message.
  destruct ty; run; rewrite check_command_match_run;
    destruct (dashboard_fires _); split; reflexivity.
Qed.

(** X15. The dashboard matches any two equal non-empty texts: a voice
    message and an OCR message with the same data, at most ten seconds
    apart, on a dashboard without current times, record one match entry
    with that data, extend both histories and clear the four current
    attributes; the data need not be a valid command. *)
Theorem dashboard_pairs_any_equal_text d data t_voice t_ocr m1 m2 :
  Dashboard.current_voice_time d = None ->
  Dashboard.current_ocr_time d = None ->
  PyStr.truthy data = true ->
  Z.abs (t_voice - t_ocr) <= Dashboard.window ->
  let d1 := state_of (Dashboard.process_gui_message Dashboard.voice_command_msg data
                        t_voice m1 d) in
  let d2 := state_of (Dashboard.process_gui_message Dashboard.ocr_command_msg data
                        t_ocr m2 d1) in
  Dashboard.matched_commands d1 = Dashboard.matched_commands d
  /\ Dashboard.matched_commands d2 = Dashboard.matched_commands d ++ [(m2, Some data)]
  /\ Dashboard.voice_commands d2 = Dashboard.voice_commands d ++ [(t_voice, data)]
  /\ Dashboard.ocr_commands d2 = Dashboard.ocr_commands d ++ [(t_ocr, data)]
  /\ Dashboard.current_voice_command d2 = None
  /\ Dashboard.current_ocr_command d2 = None
  /\ Dashboard.current_voice_time d2 = None
  /\ Dashboard.current_ocr_time d2 = None.
Proof.
  intros Hv Ho Hdata Hdt d1 d2. subst d2 d1.
  destruct (process_gui_message_run Dashboard.voice_command_msg data t_voice m1 d) as [_ ->].
  cbv zeta.
  assert (H1 : dashboard_fires (Dashboard.set_voice data t_voice d) = false).
  { unfold dashboard_fires. cbn. rewrite Ho. reflexivity. }
  rewrite H1.
  destruct (process_gui_message_run Dashboard.ocr_command_msg data t_ocr m2
              (Dashboard.set_voice data t_voice d)) as [_ ->].
  cbv zeta.
  assert (H2 : dashboard_fires
                 (Dashboard.set_ocr data t_ocr (Dashboard.set_voice data t_voice d)) = true).
  { unfold dashboard_fires. cbn. rewrite Hdata. cbn.
    rewrite bool_decide_eq_true_2 by reflexivity. apply Z.leb_le. exact Hdt. }
  rewrite H2. repeat split.
Qed.

Lemma dashboard_pairs_any_equal_text_witness :
  Dashboard.matched_commands
    (state_of (Dashboard.process_gui_message Dashboard.ocr_command_msg "home" 2000000 2000001
                 (state_of (Dashboard.process_gui_message Dashboard.voice_command_msg "home"
                              0 1 Dashboard.init))))
  = [(2000001, Some "home")].
Proof.
  destruct (dashboard_pairs_any_equal_text Dashboard.init "home" 0 2000000 1 2000001)
    as (_ & Hm & _).
  - reflexivity.
  - reflexivity.
  - reflexivity.
  - vm_compute. discriminate.
  - exact Hm.
Defined.

Lemma update_timeout_progress_run now d :
  update_timeout_progress now d
  = match oldest_time d with
    | Some oldest =>
        (Returned (Qminmax.Qmin (QArith_base.Qmake (now - oldest) 100000)
                                (QArith_base.inject_Z 100)),
         (if Dashboard.window <? now - oldest then Dashboard.reset_current d else d), [])
    | None => (Returned (QArith_base.inject_Z 0), d, [])
    end.
Proof.
  unfold update_timeout_progress. rewrite bind_get.
  destruct (oldest_time d) as [oldest|]; [|reflexivity].
  run. destruct (Dashboard.window <? now - oldest); reflexivity.
Qed.

(** X16. [update_timeout_progress] gives the bar a value of at most
    100 and never touches the history lists; when the older of the two
    current times is more than ten seconds old it clears all four current
    attributes, the newer observation too, and otherwise it changes
    nothing. *)
Theorem timeout_bar_clears_both_slots now d :
  let r := update_timeout_progress now d in
  (exists progress,
      outcome_of r = Returned progress
      /\ QArith_base.Qle progress (QArith_base.inject_Z 100))
  /\ Dashboard.voice_commands (state_of r) = Dashboard.voice_commands d
  /\ Dashboard.ocr_commands (state_of r) = Dashboard.ocr_commands d
  /\ Dashboard.matched_commands (state_of r) = Dashboard.matched_commands d
  /\ (forall oldest,
         oldest_time d = Some oldest ->
         Dashboard.window < now - oldest ->
         Dashboard.current_voice_command (state_of r) = None
         /\ Dashboard.current_ocr_command (state_of r) = None
         /\ Dashboard.current_voice_time (state_of r) = None
         /\ Dashboard.current_ocr_time (state_of r) = None)
  /\ (forall oldest,
         oldest_time d = Some oldest -> now - oldest <= Dashboard.window -> state_of r = d)
  /\ (oldest_time d = None -> state_of r = d).
Proof.
  cbv zeta. rewrite update_timeout_progress_run.
  destruct (oldest_time d) as [oldest|]; unfold outcome_of, state_of; cbn [fst snd].
  - split.
    { eexists. split; [reflexivity|]. apply Qminmax.Q.le_min_r. }
    split; [destruct (Dashboard.window <? now - oldest); reflexivity|].
    split; [destruct (Dashboard.window <? now - oldest); reflexivity|].
    split; [destruct (Dashboard.window <? now - oldest); reflexivity|].
    split; [|split].
    + intros o [= <-] H. apply Z.ltb_lt in H. rewrite H. repeat split.
    + intros o [= <-] H. apply Z.ltb_ge in H. rewrite H. reflexivity.
    + discriminate.
  - split.
    { eexists. split; [reflexivity|]. unfold QArith_base.Qle. cbn. lia. }
    split; [reflexivity|]. split; [reflexivity|]. split; [reflexivity|].
    split; [intros o Hnone; discriminate|]. split; [intros o Hnone; discriminate|].
    intros _. reflexivity.
Qed.

Lemma timeout_bar_clears_both_slots_witness :
  Dashboard.current_voice_command (state_of (update_timeout_progress 11000000 dash_both_one))
  = None
  /\ Dashboard.current_ocr_command (state_of (update_timeout_progress 11000000 dash_both_one))
     = None.
Proof.
  destruct (timeout_bar_clears_both_slots 11000000 dash_both_one)
    as (_ & _ & _ & _ & Hclear & _).
  destruct (Hclear 0) as (Hv & Ho & _).
  - reflexivity.
  - vm_compute. reflexivity.
  - split; [exact Hv | exact Ho].
Defined.

(** ** The history lists *)

Lemma gui_pending_range command time : 0 <= gui_pending command time <= 1.
Proof. unfold gui_pending. destruct time; [destruct (truthy command)|]; lia. Qed.

Lemma history_ok_fired entry d :
  history_ok d -> dashboard_fires d = true ->
  history_ok (Dashboard.reset_current (Dashboard.append_match entry d)).
Proof.
  intros [Hv Ho] Hf. unfold dashboard_fires in Hf. unfold gui_pending in Hv, Ho.
  destruct (Dashboard.current_voice_time d); [|discriminate].
  destruct (Dashboard.current_ocr_time d); [|discriminate].
  apply andb_true_iff in Hf as [Hf _]. apply andb_true_iff in Hf as [Hf _].
  apply andb_true_iff in Hf as [Htv Hto]. rewrite Htv in Hv. rewrite Hto in Ho.
  unfold history_ok. cbn. rewrite length_app. cbn. lia.
Qed.

Lemma history_ok_reset d : history_ok d -> history_ok (Dashboard.reset_current d).
Proof.
  intros [Hv Ho].
  pose proof (gui_pending_range (Dashboard.current_voice_command d)
                (Dashboard.current_voice_time d)).
  pose proof (gui_pending_range (Dashboard.current_ocr_command d)
                (Dashboard.current_ocr_time d)).
  unfold history_ok. cbn. lia.
Qed.

Lemma history_ok_step st d :
  history_ok d ->
  outcome_of (run_gui_step st d) = Returned tt /\ history_ok (state_of (run_gui_step st d)).
Proof.
  intros Hd. destruct st as [ty data current_time match_time | now]; cbn [run_gui_step].
  - destruct (process_gui_message_run ty data current_time match_time d) as [-> ->].
    split; [reflexivity|]. cbv zeta.
    assert (Hd1 : history_ok
                    match ty with
                    | Dashboard.voice_command_msg => Dashboard.set_voice data current_time d
                    | Dashboard.ocr_command_msg => Dashboard.set_ocr data current_time d
                    | Dashboard.reset_msg => Dashboard.reset_current d
                    | Dashboard.other_msg => d
                    end).
    { destruct Hd as [Hv Ho].
      pose proof (gui_pending_range (Dashboard.current_voice_command d)
                    (Dashboard.current_voice_time d)).
      pose proof (gui_pending_range (Dashboard.current_ocr_command d)
                    (Dashboard.current_ocr_time d)).
      pose proof (gui_pending_range (Some data) (Some current_time)).
      destruct ty; [| |apply history_ok_reset; split; assumption | split; assumption];
        unfold history_ok; cbn [Dashboard.set_voice Dashboard.set_ocr
          Dashboard.matched_commands Dashboard.voice_commands Dashboard.ocr_commands
          Dashboard.current_voice_command Dashboard.current_voice_time
          Dashboard.current_ocr_command Dashboard.current_ocr_time];
        rewrite length_app; cbn [length]; lia. }
    destruct (dashboard_fires _) eqn:Hf; [apply history_ok_fired; assumption | exact Hd1].
  - unfold bind, ret. rewrite update_timeout_progress_run.
    destruct (oldest_time d) as [oldest|]; unfold outcome_of, state_of; cbn [fst snd].
    + split; [reflexivity|].
      destruct (Dashboard.window <? now - oldest); [apply history_ok_reset|]; exact Hd.
    + split; [reflexivity | exact Hd].
Qed.

Lemma run_gui_cons st steps d :
  outcome_of (run_gui_step st d) = Returned tt ->
  state_of (run_gui (st :: steps) d) = state_of (run_gui steps (state_of (run_gui_step st d)))
  /\ outcome_of (run_gui (st :: steps) d)
     = outcome_of (run_gui steps (state_of (run_gui_step st d))).
Proof.
  cbn [run_gui]. unfold bind, outcome_of, state_of.
  destruct (run_gui_step st d) as [[o d1] t1]. cbn [fst snd]. intros ->.
  destruct (run_gui steps d1) as [[o2 d2] t2]. split; reflexivity.
Qed.

Lemma history_ok_run steps d :
  history_ok d ->
  outcome_of (run_gui steps d) = Returned tt /\ history_ok (state_of (run_gui steps d)).
Proof.
  revert d. induction steps as [|st steps IH]; intros d Hd; [split; [reflexivity | exact Hd]|].
  destruct (history_ok_step st d Hd) as [Hret Hd1].
  destruct (run_gui_cons st steps d Hret) as [-> ->]. apply IH. exact Hd1.
Qed.

(** X17. After any sequence of queue messages and timeout updates on a
    new dashboard, the recorded matches are at most as many as the voice
    messages and as the OCR messages, so the success rate
    [update_display] shows is at most 100; no step raises. *)
Theorem dashboard_matches_never_outnumber_messages steps :
  let d := state_of (run_gui steps Dashboard.init) in
  outcome_of (run_gui steps Dashboard.init) = Returned tt
  /\ (length (Dashboard.matched_commands d) <= length (Dashboard.voice_commands d))%nat
  /\ (length (Dashboard.matched_commands d) <= length (Dashboard.ocr_commands d))%nat
  /\ QArith_base.Qle (success_rate d) (QArith_base.inject_Z 100).
Proof.
  cbv zeta. destruct (history_ok_run steps Dashboard.init) as [Hret [Hv Ho]].
  { split; cbn; lia. }
  set (d := state_of (run_gui steps Dashboard.init)) in *.
  pose proof (gui_pending_range (Dashboard.current_voice_command d)
                (Dashboard.current_voice_time d)).
  pose proof (gui_pending_range (Dashboard.current_ocr_command d)
                (Dashboard.current_ocr_time d)).
  split; [exact Hret|]. split; [lia|]. split; [lia|].
  unfold success_rate.
  destruct (0 <? Z.of_nat (length (Dashboard.voice_commands d))
                 + Z.of_nat (length (Dashboard.ocr_commands d))) eqn:Htot.
  - apply Z.ltb_lt in Htot. unfold QArith_base.Qle.
    cbn [QArith_base.Qnum QArith_base.Qden QArith_base.inject_Z].
    rewrite Z2Pos.id by exact Htot. lia.
  - unfold QArith_base.Qle. cbn. lia.
Qed.

(** * Further compositions *)

(** X18. After a sweep at some clock reading, a sweep at the same or an
    earlier reading changes nothing. *)
Theorem earlier_sweep_after_a_sweep_changes_nothing now earlier s :
  earlier <= now ->
  state_of (cleanup_old_commands earlier (state_of (cleanup_old_commands now s)))
  = state_of (cleanup_old_commands now s).
Proof.
  intros Hle.
  destruct (cleanup_old_commands_run now s) as (t & -> & _).
  unfold state_of at 2 3. cbn [fst snd].
  match goal with
  | |- state_of (cleanup_old_commands earlier ?s1) = _ =>
      destruct (cleanup_old_commands_run earlier s1) as (t' & -> & _)
  end.
  unfold state_of. cbn [fst snd voice_command voice_time ocr_command ocr_time timeout stats].
  destruct (nonzero (voice_time s) && (timeout s <? now - voice_time s)) eqn:Ev;
    destruct (nonzero (ocr_time s) && (timeout s <? now - ocr_time s)) eqn:Eo;
    cbn [nonzero Z.eqb negb andb].
  - reflexivity.
  - assert (E : nonzero (ocr_time s) && (timeout s <? earlier - ocr_time s) = false).
    { apply andb_false_iff in Eo as [Eo|Eo]; apply andb_false_iff; [left; exact Eo|].
      right. apply Z.ltb_ge in Eo. apply Z.ltb_ge. lia. }
    rewrite E. reflexivity.
  - assert (E : nonzero (voice_time s) && (timeout s <? earlier - voice_time s) = false).
    { apply andb_false_iff in Ev as [Ev|Ev]; apply andb_false_iff; [left; exact Ev|].
      right. apply Z.ltb_ge in Ev. apply Z.ltb_ge. lia. }
    rewrite E. reflexivity.
  - assert (E1 : nonzero (voice_time s) && (timeout s <? earlier - voice_time s) = false).
    { apply andb_false_iff in Ev as [Ev|Ev]; apply andb_false_iff; [left; exact Ev|].
      right. apply Z.ltb_ge in Ev. apply Z.ltb_ge. lia. }
    assert (E2 : nonzero (ocr_time s) && (timeout s <? earlier - ocr_time s) = false).
    { apply andb_false_iff in Eo as [Eo|Eo]; apply andb_false_iff; [left; exact Eo|].
      right. apply Z.ltb_ge in Eo. apply Z.ltb_ge. lia. }
    rewrite E1, E2. reflexivity.
Qed.

Lemma earlier_sweep_after_a_sweep_changes_nothing_witness :
  state_of (cleanup_old_commands 105 (state_of (cleanup_old_commands 111 heard_one)))
  = state_of (cleanup_old_commands 111 heard_one).
Proof.
  apply (earlier_sweep_after_a_sweep_changes_nothing 111 105 heard_one). lia.
Defined.

Lemma split_go_has_second sep s :
  PyText.contains sep s = true -> sep <> "" ->
  exists part parts, snd (PyText.split_go sep 0 s) = part :: parts.
Proof.
  intros H Hsep. induction s as [|c s IH].
  - destruct sep; [contradiction | discriminate].
  - cbn [PyText.contains] in H. cbn [PyText.split_go].
    destruct (String.prefix sep (String c s)) eqn:Hp.
    + cbn [snd]. destruct (PyText.split_go sep (String.length sep - 1) s) as [p ps].
      eauto.
    + cbn [orb] in H. destruct (IH H) as (part & parts & E).
      destruct (PyText.split_go sep 0 s) as [p ps]. cbn [snd] in *. eauto.
Qed.

(** X19. Every line that holds the marker "[COMMAND]", wherever it
    stands, has a second part in its split, so [_process_line] always
    reaches [add_command] with that part stripped: its effect on the
    matcher and its events are those of that call, and it returns. *)
Theorem marked_line_reaches_the_matcher arm source line now s :
  PyText.contains COMMAND_MARKER line = true ->
  let r := _process_line arm source line now s in
  exists part echo,
    PyText.split COMMAND_MARKER line !! 1%nat = Some part
    /\ outcome_of r = Returned echo
    /\ state_of r = state_of (add_command arm (PyStr.strip part) (PyText.upper source) now s)
    /\ trace_of r = trace_of (add_command arm (PyStr.strip part) (PyText.upper source) now s).
Proof.
  intros H r. subst r.
  destruct (split_go_has_second COMMAND_MARKER line H) as (part & parts & E);
    [discriminate|].
  assert (Hsplit : PyText.split COMMAND_MARKER line !! 1%nat = Some part).
  { unfold PyText.split. destruct (PyText.split_go COMMAND_MARKER 0 line) as [p ps].
    cbn [snd] in E. rewrite E. reflexivity. }
  exists part. unfold _process_line. rewrite H, Hsplit.
  pose proof (add_command_returns arm (PyStr.strip part) (PyText.upper source) now s) as Hret.
  unfold bind, try_except, ret, outcome_of, state_of, trace_of in *.
  destruct (add_command arm (PyStr.strip part) (PyText.upper source) now s) as [[o s1] t1].
  cbn [fst snd] in *. rewrite Hret. cbn [fst snd]. rewrite app_nil_r.
  eexists. repeat split.
Qed.

Lemma marked_line_reaches_the_matcher_witness :
  exists part echo,
    PyText.split COMMAND_MARKER "12:00 [COMMAND] two" !! 1%nat = Some part
    /\ outcome_of (_process_line arm_returns "VOICE" "12:00 [COMMAND] two" 5 (init 10))
       = Returned echo
    /\ state_of (_process_line arm_returns "VOICE" "12:00 [COMMAND] two" 5 (init 10))
       = state_of (add_command arm_returns (PyStr.strip part) (PyText.upper "VOICE") 5
                     (init 10))
    /\ trace_of (_process_line arm_returns "VOICE" "12:00 [COMMAND] two" 5 (init 10))
       = trace_of (add_command arm_returns (PyStr.strip part) (PyText.upper "VOICE") 5
                     (init 10)).
Proof.
  apply (marked_line_reaches_the_matcher arm_returns "VOICE" "12:00 [COMMAND] two" 5 (init 10)).
  vm_compute. reflexivity.
Defined.

(** X20. On the dashboard, a voice message and an OCR message whose
    data differ, or whose times are more than ten seconds apart, record
    no match: both current slots keep their data and times, and only the
    OCR line is printed. *)
Theorem dashboard_keeps_unmatched_pair d data_voice data_ocr t_voice t_ocr m1 m2 :
  Dashboard.current_voice_time d = None ->
  Dashboard.current_ocr_time d = None ->
  data_voice <> data_ocr \/ Dashboard.window < Z.abs (t_voice - t_ocr) ->
  let d1 := state_of (Dashboard.process_gui_message Dashboard.voice_command_msg data_voice
                        t_voice m1 d) in
  let d2 := state_of (Dashboard.process_gui_message Dashboard.ocr_command_msg data_ocr
                        t_ocr m2 d1) in
  Dashboard.matched_commands d2 = Dashboard.matched_commands d
  /\ Dashboard.current_voice_command d2 = Some data_voice
  /\ Dashboard.current_voice_time d2 = Some t_voice
  /\ Dashboard.current_ocr_command d2 = Some data_ocr
  /\ Dashboard.current_ocr_time d2 = Some t_ocr
  /\ trace_of (Dashboard.process_gui_message Dashboard.ocr_command_msg data_ocr t_ocr m2 d1)
     = [Printed (LogGuiOcr data_ocr)].
Proof.
  intros Hv Ho Hapart d1 d2. subst d2.
  assert (Hd1 : d1 = Dashboard.set_voice data_voice t_voice d).
  { subst d1.
    destruct (process_gui_message_run Dashboard.voice_command_msg data_voice t_voice m1 d)
      as [_ ->]. cbv zeta.
    assert (H1 : dashboard_fires (Dashboard.set_voice data_voice t_voice d) = false).
    { unfold dashboard_fires. cbn. rewrite Ho. reflexivity. }
    rewrite H1. reflexivity. }
  rewrite Hd1. clear Hd1 d1.
  assert (H2 : dashboard_fires
                 (Dashboard.set_ocr data_ocr t_ocr (Dashboard.set_voice data_voice t_voice d))
               = false).
  { unfold dashboard_fires. cbn. rewrite !andb_false_iff, bool_decide_eq_false, Z.leb_gt.
    destruct Hapart as [Hne|Hfar]; [left; right; congruence | right; exact Hfar]. }
  destruct (process_gui_message_run Dashboard.ocr_command_msg data_ocr t_ocr m2
              (Dashboard.set_voice data_voice t_voice d)) as [_ ->].
  cbv zeta. rewrite H2.
  split; [reflexivity|]. split; [reflexivity|]. split; [reflexivity|].
  split; [reflexivity|]. split; [reflexivity|].
  unfold Dashboard.process_gui_message. run. rewrite check_command_match_run, H2.
  reflexivity.
Qed.

Lemma dashboard_keeps_unmatched_pair_witness :
  Dashboard.matched_commands
    (state_of (Dashboard.process_gui_message Dashboard.ocr_command_msg "three" 1000000 1000001
                 (state_of (Dashboard.process_gui_message Dashboard.voice_command_msg "two"
                              0 1 Dashboard.init))))
  = [].
Proof.
  destruct (dashboard_keeps_unmatched_pair Dashboard.init "two" "three" 0 1000000 1 1000001)
    as (Hm & _).
  - reflexivity.
  - reflexivity.
  - left. discriminate.
  - exact Hm.
Defined.

(** * The slots in every run *)

(** ** The slot invariant *)

Lemma slot_inv_init window : slot_inv (init window).
Proof. split; cbn; split; intros H; contradiction. Qed.

Lemma slot_inv_add_command arm raw source now s :
  slot_inv s -> now <> 0 -> slot_inv (state_of (add_command arm raw source now s)).
Proof.
  intros Hinv Hnow. destruct (rejected (_clean_command raw)) eqn:Hrej.
  - rewrite add_command_rejected by exact Hrej. exact Hinv.
  - rewrite add_command_state by exact Hrej. cbv zeta.
    destruct (match_rule _); [apply slot_inv_fired|].
    apply slot_inv_record; [exact Hinv | | exact Hnow].
    intros E. apply accepted_truthy in Hrej. rewrite E in Hrej. discriminate.
Qed.

Lemma slot_inv_check_match arm s : slot_inv s -> slot_inv (state_of (_check_match arm s)).
Proof.
  intros Hinv. rewrite _check_match_run.
  destruct (match_rule s); [apply slot_inv_fired | exact Hinv].
Qed.

Lemma slot_inv_cleanup now s :
  slot_inv s -> slot_inv (state_of (cleanup_old_commands now s)).
Proof.
  intros [Hv Ho]. destruct (cleanup_old_commands_state now s) as (_ & Hs & _).
  cbv zeta in Hs. rewrite Hs. split.
  - cbn [voice_command voice_time].
    destruct (nonzero (voice_time s) && (timeout s <? now - voice_time s));
      [split; intros H; contradiction | exact Hv].
  - cbn [ocr_command ocr_time].
    destruct (nonzero (ocr_time s) && (timeout s <? now - ocr_time s));
      [split; intros H; contradiction | exact Ho].
Qed.

Lemma slot_inv_call c s :
  slot_inv s -> reading_nonzero c -> slot_inv (state_of (run_call c s)).
Proof.
  intros Hinv Hc. destruct c as [arm command source now | now]; cbn [run_call].
  - apply slot_inv_add_command; [exact Hinv | exact Hc].
  - apply slot_inv_cleanup. exact Hinv.
Qed.

(** The invariant holds in every state a matcher reaches from a state in
    which it holds. *)
Lemma slot_inv_run calls s :
  slot_inv s -> nonzero_readings calls -> slot_inv (state_of (run_calls calls s)).
Proof.
  revert s. induction calls as [|c calls IH]; intros s Hinv Hcalls; [exact Hinv|].
  apply Forall_cons_1 in Hcalls as [Hc Hcalls].
  destruct (run_calls_cons c calls s (run_call_returns c s)) as (-> & _).
  apply IH; [|exact Hcalls]. apply slot_inv_call; [exact Hinv | exact Hc].
Qed.

(** C10. A slot holds a command exactly when its timestamp is not zero.
    This holds in a new matcher, and [add_command], [_check_match] and
    [cleanup_old_commands] each keep it, so it holds in every state a
    matcher reaches.  The clock reading [add_command] takes is a reading
    of [time.time()], the seconds since 1970, which is not zero. *)
Theorem slot_command_and_time_together :
  (forall window, slot_inv (init window))
  /\ (forall arm s,
      slot_inv s ->
      (forall raw source now,
          now <> 0 -> slot_inv (state_of (add_command arm raw source now s)))
      /\ slot_inv (state_of (_check_match arm s))
      /\ (forall now, slot_inv (state_of (cleanup_old_commands now s))))
  /\ (forall calls window,
      nonzero_readings calls ->
      slot_inv (state_of (run_calls calls (init window)))).
Proof.
  split; [exact slot_inv_init|]. split.
  - intros arm s Hinv. split; [|split].
    + intros raw source now Hnow. apply slot_inv_add_command; assumption.
    + apply slot_inv_check_match. exact Hinv.
    + intros now. apply slot_inv_cleanup. exact Hinv.
  - intros calls window Hcalls. apply slot_inv_run; [apply slot_inv_init | exact Hcalls].
Qed.

Lemma slot_command_and_time_together_witness :
  slot_inv (state_of (add_command arm_returns "one" "OCR" 103 heard_one))
  /\ slot_inv (state_of (_check_match arm_raises heard_one))
  /\ slot_inv (state_of (cleanup_old_commands 111 heard_one))
  /\ slot_inv (state_of (run_calls [CallAdd arm_raises "one" "VOICE" 100;
                                    CallCleanup 105;
                                    CallAdd arm_raises "1" "OCR" 107] (init 10))).
Proof.
  destruct slot_command_and_time_together as (_ & Hstep & Hrun).
  destruct (Hstep arm_returns heard_one heard_one_inv) as (Hadd & _ & Hsweep).
  destruct (Hstep arm_raises heard_one heard_one_inv) as (_ & Hcheck & _).
  split; [|split; [|split]].
  - apply Hadd. lia.
  - exact Hcheck.
  - apply Hsweep.
  - apply Hrun. repeat constructor; cbn; lia.
Defined.

(** ** The sweep *)

(** What a sweep does to the slots of a matcher in which the invariant
    holds. *)
Lemma cleanup_clears_populated now s :
  slot_inv s ->
  let s' := state_of (cleanup_old_commands now s) in
  (voice_command s <> None /\ timeout s < now - voice_time s ->
   voice_command s' = None /\ voice_time s' = 0)
  /\ (~ (voice_command s <> None /\ timeout s < now - voice_time s) ->
      voice_command s' = voice_command s /\ voice_time s' = voice_time s)
  /\ (ocr_command s <> None /\ timeout s < now - ocr_time s ->
      ocr_command s' = None /\ ocr_time s' = 0)
  /\ (~ (ocr_command s <> None /\ timeout s < now - ocr_time s) ->
      ocr_command s' = ocr_command s /\ ocr_time s' = ocr_time s).
Proof.
  intros [Hv Ho] s'. subst s'.
  destruct (cleanup_old_commands_state now s) as (_ & Hs & _).
  cbv zeta in Hs. rewrite Hs. clear Hs.
  cbn [voice_command voice_time ocr_command ocr_time].
  split; [|split; [|split]].
  - intros [Hc Hage]. apply Hv, nonzero_true in Hc.
    apply Z.ltb_lt in Hage. rewrite Hc, Hage. split; reflexivity.
  - intros Hnot.
    destruct (nonzero (voice_time s) && (timeout s <? now - voice_time s)) eqn:E;
      [|split; reflexivity].
    apply andb_true_iff in E as [E1 E2]. exfalso. apply Hnot. split.
    + apply Hv, nonzero_true. exact E1.
    + apply Z.ltb_lt. exact E2.
  - intros [Hc Hage]. apply Ho, nonzero_true in Hc.
    apply Z.ltb_lt in Hage. rewrite Hc, Hage. split; reflexivity.
  - intros Hnot.
    destruct (nonzero (ocr_time s) && (timeout s <? now - ocr_time s)) eqn:E;
      [|split; reflexivity].
    apply andb_true_iff in E as [E1 E2]. exfalso. apply Hnot. split.
    + apply Ho, nonzero_true. exact E1.
    + apply Z.ltb_lt. exact E2.
Qed.

(** A sweep changes no counter and dispatches nothing. *)
Lemma cleanup_is_quiet now s :
  let r := cleanup_old_commands now s in
  outcome_of r = Returned tt
  /\ stats (state_of r) = stats s
  /\ dispatched_under_lock (trace_of r) = []
  /\ dispatched_outside_lock (trace_of r) = [].
Proof.
  intros r. subst r.
  destruct (cleanup_old_commands_state now s) as (Hret & Hs & Ht1 & Ht2).
  cbv zeta in Hs, Hret, Ht1, Ht2. rewrite Hs. repeat split; assumption.
Qed.

(** C4. In every state a matcher reaches -- from a new matcher, by calls
    of [add_command] and [cleanup_old_commands], the clock readings of
    [add_command] being readings of [time.time()] and so not zero --
    [cleanup_old_commands] returns, empties exactly the populated slots
    whose age exceeds the timeout and leaves the other slots as they are;
    it changes no counter and dispatches nothing, so it produces no
    match.  The same is true of every state in which a slot holds a
    command exactly when its timestamp is not zero; and in any state at
    all the slots emptied are those whose timestamp is not zero and older
    than the timeout.  In particular, after one accepted observation from
    one channel alone on a new matcher, a sweep later than the timeout
    after it empties that channel's slot, and the match counter is still
    zero. *)
Theorem sweep_clears_exactly_expired :
  (forall calls window now,
      nonzero_readings calls ->
      let s := state_of (run_calls calls (init window)) in
      let r := cleanup_old_commands now s in
      let s' := state_of r in
      outcome_of r = Returned tt
      /\ (voice_command s <> None /\ timeout s < now - voice_time s ->
          voice_command s' = None /\ voice_time s' = 0)
      /\ (~ (voice_command s <> None /\ timeout s < now - voice_time s) ->
          voice_command s' = voice_command s /\ voice_time s' = voice_time s)
      /\ (ocr_command s <> None /\ timeout s < now - ocr_time s ->
          ocr_command s' = None /\ ocr_time s' = 0)
      /\ (~ (ocr_command s <> None /\ timeout s < now - ocr_time s) ->
          ocr_command s' = ocr_command s /\ ocr_time s' = ocr_time s)
      /\ stats s' = stats s
      /\ dispatched_under_lock (trace_of r) = []
      /\ dispatched_outside_lock (trace_of r) = [])
  /\ (forall s now,
      let r := cleanup_old_commands now s in
      let s' := state_of r in
      stats s' = stats s
      /\ dispatched_under_lock (trace_of r) = []
      /\ dispatched_outside_lock (trace_of r) = []
      /\ (voice_time s <> 0 /\ timeout s < now - voice_time s ->
          voice_command s' = None /\ voice_time s' = 0)
      /\ (~ (voice_time s <> 0 /\ timeout s < now - voice_time s) ->
          voice_command s' = voice_command s /\ voice_time s' = voice_time s)
      /\ (ocr_time s <> 0 /\ timeout s < now - ocr_time s ->
          ocr_command s' = None /\ ocr_time s' = 0)
      /\ (~ (ocr_time s <> 0 /\ timeout s < now - ocr_time s) ->
          ocr_command s' = ocr_command s /\ ocr_time s' = ocr_time s))
  /\ (forall s now,
      slot_inv s ->
      let s' := state_of (cleanup_old_commands now s) in
      (voice_command s <> None /\ timeout s < now - voice_time s ->
       voice_command s' = None /\ voice_time s' = 0)
      /\ (~ (voice_command s <> None /\ timeout s < now - voice_time s) ->
          voice_command s' = voice_command s /\ voice_time s' = voice_time s)
      /\ (ocr_command s <> None /\ timeout s < now - ocr_time s ->
          ocr_command s' = None /\ ocr_time s' = 0)
      /\ (~ (ocr_command s <> None /\ timeout s < now - ocr_time s) ->
          ocr_command s' = ocr_command s /\ ocr_time s' = ocr_time s))
  /\ (forall arm raw t now window,
      rejected (_clean_command raw) = false ->
      t <> 0 ->
      window < now - t ->
      let heard := state_of (add_command arm raw "VOICE" t (init window)) in
      let swept := state_of (cleanup_old_commands now heard) in
      voice_command heard = _clean_command raw /\ voice_command heard <> None
      /\ voice_command swept = None /\ voice_time swept = 0
      /\ matched_commands (stats heard) = 0 /\ matched_commands (stats swept) = 0)
  /\ (forall arm raw t now window,
      rejected (_clean_command raw) = false ->
      t <> 0 ->
      window < now - t ->
      let seen := state_of (add_command arm raw "OCR" t (init window)) in
      let swept := state_of (cleanup_old_commands now seen) in
      ocr_command seen = _clean_command raw /\ ocr_command seen <> None
      /\ ocr_command swept = None /\ ocr_time swept = 0
      /\ matched_commands (stats seen) = 0 /\ matched_commands (stats swept) = 0).
Proof.
  split; [|split; [|split; [|split]]].
  - intros calls window now Hcalls s r s'.
    assert (Hinv : slot_inv s).
    { apply slot_inv_run; [apply slot_inv_init | exact Hcalls]. }
    destruct (cleanup_clears_populated now s Hinv) as (Hv1 & Hv2 & Ho1 & Ho2).
    destruct (cleanup_is_quiet now s) as (Hret & Hstats & Ht1 & Ht2).
    subst s' r. repeat split; first [assumption | apply Hv1; assumption
      | apply Hv2; assumption | apply Ho1; assumption | apply Ho2; assumption].
  - intros s now r s'.
    destruct (cleanup_old_commands_state now s) as (_ & Hs & Ht1 & Ht2).
    cbv zeta in Hs. subst r s'. rewrite Hs, Ht1, Ht2. clear Hs Ht1 Ht2.
    cbn [stats voice_command voice_time ocr_command ocr_time].
    split; [reflexivity|]. split; [reflexivity|]. split; [reflexivity|].
    split; [|split; [|split]].
    + intros [Hc Hage]. apply nonzero_true in Hc.
      apply Z.ltb_lt in Hage. rewrite Hc, Hage. split; reflexivity.
    + intros Hnot.
      destruct (nonzero (voice_time s) && (timeout s <? now - voice_time s)) eqn:E;
        [|split; reflexivity].
      apply andb_true_iff in E as [E1 E2]. exfalso. apply Hnot. split.
      * apply nonzero_true. exact E1.
      * apply Z.ltb_lt. exact E2.
    + intros [Hc Hage]. apply nonzero_true in Hc.
      apply Z.ltb_lt in Hage. rewrite Hc, Hage. split; reflexivity.
    + intros Hnot.
      destruct (nonzero (ocr_time s) && (timeout s <? now - ocr_time s)) eqn:E;
        [|split; reflexivity].
      apply andb_true_iff in E as [E1 E2]. exfalso. apply Hnot. split.
      * apply nonzero_true. exact E1.
      * apply Z.ltb_lt. exact E2.
  - intros s now Hinv. apply cleanup_clears_populated. exact Hinv.
  - intros arm raw t now window Hacc Ht Hage heard swept.
    assert (Hheard : heard = record_observation (_clean_command raw) "VOICE" t (init window)).
    { subst heard. rewrite add_command_state by exact Hacc. cbv zeta.
      rewrite match_rule_empty_ocr; reflexivity. }
    destruct (cleanup_old_commands_state now heard) as (_ & Hs & _).
    cbv zeta in Hs. subst swept. rewrite Hs, Hheard, record_voice.
    cbn [stats voice_command voice_time ocr_command ocr_time timeout incr set_voice
         init matched_commands stat_incr].
    apply nonzero_true in Ht. apply Z.ltb_lt in Hage. rewrite Ht, Hage.
    pose proof (accepted_truthy _ Hacc) as Htr.
    repeat split. intros E. rewrite E in Htr. discriminate.
  - intros arm raw t now window Hacc Ht Hage seen swept.
    assert (Hseen : seen = record_observation (_clean_command raw) "OCR" t (init window)).
    { subst seen. rewrite add_command_state by exact Hacc. cbv zeta.
      rewrite match_rule_empty_voice; reflexivity. }
    destruct (cleanup_old_commands_state now seen) as (_ & Hs & _).
    cbv zeta in Hs. subst swept. rewrite Hs, Hseen, record_ocr.
    cbn [stats voice_command voice_time ocr_command ocr_time timeout incr set_ocr
         init matched_commands stat_incr].
    apply nonzero_true in Ht. apply Z.ltb_lt in Hage. rewrite Ht, Hage.
    pose proof (accepted_truthy _ Hacc) as Htr.
    repeat split. intros E. rewrite E in Htr. discriminate.
Qed.

Lemma sweep_clears_exactly_expired_witness :
  (voice_command
     (state_of (cleanup_old_commands 111
                  (state_of (run_calls [CallAdd arm_returns "one" "VOICE" 100] (init 10)))))
   = None)
  /\ (voice_command (state_of (cleanup_old_commands 111 heard_one)) = None
      /\ voice_time (state_of (cleanup_old_commands 111 heard_one)) = 0)
  /\ (voice_command (state_of (cleanup_old_commands 105 heard_one)) = Some "one"
      /\ voice_time (state_of (cleanup_old_commands 105 heard_one)) = 100)
  /\ voice_command
       (state_of (cleanup_old_commands 111
                    (state_of (add_command arm_returns "one" "VOICE" 100 (init 10)))))
     = None
  /\ ocr_command
       (state_of (cleanup_old_commands 111
                    (state_of (add_command arm_returns "1" "OCR" 100 (init 10)))))
     = None.
Proof.
  destruct sweep_clears_exactly_expired as (Hrun & _ & Hsweep & Hvoice & Hocr).
  split; [|split; [|split; [|split]]].
  - assert (Hcalls : nonzero_readings [CallAdd arm_returns "one" "VOICE" 100]).
    { repeat constructor. cbn. lia. }
    destruct (Hrun [CallAdd arm_returns "one" "VOICE" 100] 10 111 Hcalls)
      as (_ & Hexpired & _).
    apply Hexpired. split; [vm_compute; discriminate | vm_compute; reflexivity].
  - destruct (Hsweep heard_one 111 heard_one_inv) as (Hexpired & _).
    apply Hexpired. split; [discriminate | simpl; lia].
  - destruct (Hsweep heard_one 105 heard_one_inv) as (_ & Hfresh & _).
    apply Hfresh. simpl. intros [_ H]. lia.
  - assert (Hacc : rejected (_clean_command "one") = false) by (vm_compute; reflexivity).
    destruct (Hvoice arm_returns "one" 100 111 10 Hacc) as (_ & _ & Hswept & _);
      [lia | lia | exact Hswept].
  - assert (Hacc : rejected (_clean_command "1") = false) by (vm_compute; reflexivity).
    destruct (Hocr arm_returns "1" 100 111 10 Hacc) as (_ & _ & Hswept & _);
      [lia | lia | exact Hswept].
Defined.

(** * Dispatch under every kind of exception *)

Ltac wide_run :=
  cbv [Wide.bind Wide.ret Wide.get Wide.modify Wide.emit Wide.print Wide.extern
       Wide.try_except Wide.try_except_all Wide.with_lock Wide.raise].

Lemma wide_execute_command_run arm c s :
  Wide._execute_command arm c s = (Wide.dispatch_result arm c, s, Wide.dispatch_trace arm c).
Proof.
  unfold Wide._execute_command, Wide.dispatch_result, Wide.dispatch_trace. wide_run.
  destruct (Wide.ARM_AVAILABLE arm); [|reflexivity].
  destruct (Wide.process_voice_command arm c); reflexivity.
Qed.

Lemma wide_check_match_run arm s :
  Wide._check_match arm s
  = if match_rule s then Wide.fired_run arm s else (Wide.Returns tt, s, []).
Proof.
  rewrite match_rule_guard. unfold Wide._check_match, Wide.bind at 1, Wide.get.
  destruct (negb (truthy (voice_command s)) || negb (truthy (ocr_command s))); [reflexivity|].
  destruct (bool_decide (voice_command s = ocr_command s)
            && (Z.abs (voice_time s - ocr_time s) <=? timeout s)); [|reflexivity].
  unfold Wide.fired_run, fired.
  cbv [Wide.bind Wide.print Wide.emit Wide.modify Wide.get].
  rewrite wide_execute_command_run. cbn [voice_command incr].
  destruct (Wide.dispatch_result arm (voice_command s)) as [[|]| |];
    cbn; rewrite ?app_nil_r; reflexivity.
Qed.

Lemma wide_add_command_rejected arm command source now s :
  rejected (_clean_command command) = true ->
  Wide.add_command arm command source now s
  = (Wide.Returns tt, s, [LockAcquire; Printed (LogInvalid command source); LockRelease]).
Proof.
  intros Hrej. unfold Wide.add_command, Wide.with_lock. rewrite Hrej. reflexivity.
Qed.

Lemma wide_add_command_accepted arm command source now s :
  rejected (_clean_command command) = false ->
  let cleaned := _clean_command command in
  let s1 := record_observation cleaned source now s in
  Wide.add_command arm command source now s
  = if match_rule s1
    then (Wide.result_of (Wide.fired_run arm s1), Wide.state_of (Wide.fired_run arm s1),
          LockAcquire
          :: (observation_trace cleaned source ++ Wide.trace_of (Wide.fired_run arm s1))
          ++ [LockRelease])
    else (Wide.Returns tt, s1, LockAcquire :: observation_trace cleaned source ++ [LockRelease]).
Proof.
  intros Hacc cleaned s1. unfold Wide.add_command, Wide.with_lock. rewrite Hacc.
  fold cleaned. unfold Wide.bind at 1.
  assert (Hobs :
    (if bool_decide (source = "VOICE")
     then Wide.bind (Wide.modify (set_voice cleaned now))
            (fun _ => Wide.bind (Wide.modify (incr K_voice_commands))
                        (fun _ => Wide.print (LogVoice cleaned)))
     else if bool_decide (source = "OCR")
          then Wide.bind (Wide.modify (set_ocr cleaned now))
                 (fun _ => Wide.bind (Wide.modify (incr K_ocr_commands))
                             (fun _ => Wide.print (LogOcr cleaned)))
          else Wide.ret tt) s
    = (Wide.Returns tt, s1, observation_trace cleaned source)).
  { unfold s1, record_observation, observation_trace.
    destruct (bool_decide (source = "VOICE")); [reflexivity|].
    destruct (bool_decide (source = "OCR")); reflexivity. }
  rewrite Hobs, wide_check_match_run.
  destruct (match_rule s1); [|rewrite app_nil_r; reflexivity].
  destruct (Wide.fired_run arm s1) as [[r s2] t2]. reflexivity.
Qed.

Lemma wide_add_command_state arm command source now s :
  rejected (_clean_command command) = false ->
  Wide.state_of (Wide.add_command arm command source now s)
  = let s1 := record_observation (_clean_command command) source now s in
    if match_rule s1 then Wide.state_of (Wide.fired_run arm s1) else s1.
Proof.
  intros Hacc. rewrite (wide_add_command_accepted arm command source now s Hacc).
  cbv zeta. destruct (match_rule _); reflexivity.
Qed.

(** *** The methods above are these, on an arm controller that returns or
    raises an instance of [Exception] *)

Lemma dispatch_result_arm_of arm c :
  Wide.dispatch_result (arm_of arm) c = Wide.Returns (dispatch_ok arm c).
Proof.
  unfold Wide.dispatch_result, dispatch_ok, arm_of. cbn.
  destruct (ARM_AVAILABLE arm); [|reflexivity].
  destruct (process_voice_command arm c); reflexivity.
Qed.

Lemma dispatch_trace_arm_of arm c :
  Wide.dispatch_trace (arm_of arm) c = dispatch_trace arm c.
Proof.
  unfold Wide.dispatch_trace, dispatch_trace, arm_of. cbn.
  destruct (ARM_AVAILABLE arm); [|reflexivity].
  destruct (process_voice_command arm c); reflexivity.
Qed.

Lemma fired_run_arm_of arm s :
  Wide.fired_run (arm_of arm) s
  = (Wide.Returns tt, fired (dispatch_ok arm (voice_command s)) s, fired_trace arm s).
Proof.
  unfold Wide.fired_run, fired_trace.
  rewrite dispatch_result_arm_of, dispatch_trace_arm_of. reflexivity.
Qed.

Lemma _execute_command_widen arm c s :
  Wide._execute_command (arm_of arm) c s = widen (_execute_command arm c) s.
Proof.
  unfold widen.
  rewrite wide_execute_command_run, _execute_command_run,
    dispatch_result_arm_of, dispatch_trace_arm_of.
  reflexivity.
Qed.

Lemma _check_match_widen arm s :
  Wide._check_match (arm_of arm) s = widen (_check_match arm) s.
Proof.
  unfold widen. rewrite wide_check_match_run, _check_match_run, fired_run_arm_of.
  destruct (match_rule s); reflexivity.
Qed.

Lemma add_command_widen arm command source now s :
  Wide.add_command (arm_of arm) command source now s
  = widen (add_command arm command source now) s.
Proof.
  unfold widen. destruct (rejected (_clean_command command)) eqn:Hrej.
  - rewrite wide_add_command_rejected, add_command_rejected by exact Hrej. reflexivity.
  - rewrite (wide_add_command_accepted (arm_of arm) command source now s Hrej),
      (add_command_accepted arm command source now s Hrej).
    cbv zeta. rewrite fired_run_arm_of.
    destruct (match_rule _); reflexivity.
Qed.

Lemma _process_line_widen arm source line now s :
  Wide._process_line (arm_of arm) source line now s
  = widen (_process_line arm source line now) s.
Proof.
  unfold widen, Wide._process_line, _process_line.
  destruct (PyText.contains COMMAND_MARKER line); [|reflexivity].
  destruct (PyText.split COMMAND_MARKER line !! 1%nat) as [part|]; [|reflexivity].
  cbv [Wide.bind Wide.try_except_all Wide.ret bind try_except ret].
  rewrite add_command_widen. unfold widen.
  destruct (add_command arm (PyStr.strip part) (PyText.upper source) now s) as [[o s1] t1].
  destruct o; reflexivity.
Qed.

(** *** What the handlers catch *)

Lemma dispatch_result_returns arm c :
  Wide.raises_only_exceptions arm ->
  exists ok, Wide.dispatch_result arm c = Wide.Returns ok.
Proof.
  intros Harm. unfold Wide.dispatch_result.
  destruct (Wide.ARM_AVAILABLE arm); [|eexists; reflexivity].
  destruct (Wide.process_voice_command arm c) as [u|e|b] eqn:E;
    [eexists; reflexivity | eexists; reflexivity | exfalso; exact (Harm c b E)].
Qed.

Lemma fired_run_returns arm s :
  Wide.raises_only_exceptions arm ->
  exists ok, Wide.result_of (Wide.fired_run arm s) = Wide.Returns tt
             /\ Wide.state_of (Wide.fired_run arm s) = fired ok s.
Proof.
  intros Harm. destruct (dispatch_result_returns arm (voice_command s) Harm) as [ok Hok].
  exists ok. unfold Wide.fired_run. rewrite Hok. split; reflexivity.
Qed.

(** An exception that is not an instance of [Exception], raised by the
    arm controller in the dispatch of a match, leaves [add_command]: the
    lock is released on the way out, the match is counted, and the
    matching pair is still in the slots. *)
Lemma base_exception_leaves_add_command arm command source now s b :
  rejected (_clean_command command) = false ->
  let s1 := record_observation (_clean_command command) source now s in
  match_rule s1 = true ->
  Wide.ARM_AVAILABLE arm = true ->
  Wide.process_voice_command arm (voice_command s1) = Wide.RaisesBase b ->
  let r := Wide.add_command arm command source now s in
  Wide.result_of r = Wide.RaisesBase b
  /\ Wide.state_of r = incr K_matched_commands s1
  /\ match_rule (Wide.state_of r) = true
  /\ last (Wide.trace_of r) = Some LockRelease.
Proof.
  intros Hacc s1 Hrule Havail Hraise r. subst r.
  rewrite (wide_add_command_accepted arm command source now s Hacc). cbv zeta.
  fold s1. rewrite Hrule. unfold Wide.fired_run, Wide.dispatch_result, Wide.dispatch_trace.
  rewrite Havail, Hraise. unfold Wide.result_of, Wide.state_of, Wide.trace_of. cbn [fst snd].
  split; [reflexivity|]. split; [reflexivity|]. split; [exact Hrule|].
  rewrite app_comm_cons, last_snoc. reflexivity.
Qed.

(** The bare [except] of [_process_line] catches whatever the submission
    raises: the line handler returns with every arm controller. *)
Lemma _process_line_returns arm source line now s :
  Wide.result_of (Wide._process_line arm source line now s)
  = Wide.Returns (if _is_noise line then None else Some (PyText.upper source, line)).
Proof.
  unfold Wide._process_line.
  destruct (PyText.contains COMMAND_MARKER line); [|reflexivity].
  cbv [Wide.bind Wide.try_except_all Wide.ret Wide.raise Wide.result_of].
  destruct (PyText.split COMMAND_MARKER line !! 1%nat) as [part|]; [|reflexivity].
  destruct (Wide.add_command arm (PyStr.strip part) (PyText.upper source) now s)
    as [[[u|e|b] s1] t1]; reflexivity.
Qed.

(** C7 as stated fails: the arm controller calls [sys.exit(1)] in the
    dispatch of a match.  [SystemExit] is not an instance of [Exception],
    so the handler of [_execute_command] does not catch it and it leaves
    [add_command]; the match is counted, and both slots still hold
    "one". *)
Lemma system_exit_leaves_dispatch_cex :
  let r := Wide.add_command arm_exits "one" "OCR" 103 heard_one in
  Wide.result_of (Wide._execute_command arm_exits (Some "one") heard_one)
  = Wide.RaisesBase (Wide.SystemExit 1)
  /\ Wide.result_of r = Wide.RaisesBase (Wide.SystemExit 1)
  /\ matched_commands (stats (Wide.state_of r)) = matched_commands (stats heard_one) + 1
  /\ voice_command (Wide.state_of r) = Some "one"
  /\ ocr_command (Wide.state_of r) = Some "one"
  /\ ~ (voice_command (Wide.state_of r) = None /\ ocr_command (Wide.state_of r) = None).
Proof.
  cbv zeta. split; [vm_compute; reflexivity|]. split; [vm_compute; reflexivity|].
  split; [vm_compute; reflexivity|]. split; [vm_compute; reflexivity|].
  split; [vm_compute; reflexivity|]. vm_compute. intros [H _]. discriminate.
Qed.

(** C7, amended. With an arm controller that returns or raises an
    instance of [Exception], whatever it is called with:
    [_execute_command] returns a boolean and changes nothing, and it
    returns [False] when the controller raises; [add_command] and
    [_check_match] return, no exception leaves them; and after a
    submission that fired a match both slots are empty, whether the
    dispatch succeeded or failed. *)
Theorem dispatch_faults_are_contained (arm : Wide.ArmDriver) :
  Wide.raises_only_exceptions arm ->
  (forall command s,
      Wide.state_of (Wide._execute_command arm command s) = s
      /\ (exists ok, Wide.result_of (Wide._execute_command arm command s) = Wide.Returns ok)
      /\ (forall e, Wide.ARM_AVAILABLE arm = true ->
                    Wide.process_voice_command arm command = Wide.Raises e ->
                    Wide.result_of (Wide._execute_command arm command s)
                    = Wide.Returns false))
  /\ (forall raw source now s,
      Wide.result_of (Wide.add_command arm raw source now s) = Wide.Returns tt)
  /\ (forall s, Wide.result_of (Wide._check_match arm s) = Wide.Returns tt)
  /\ (forall raw source now s,
      matched_commands (stats (Wide.state_of (Wide.add_command arm raw source now s)))
      <> matched_commands (stats s) ->
      let s' := Wide.state_of (Wide.add_command arm raw source now s) in
      voice_command s' = None /\ voice_time s' = 0
      /\ ocr_command s' = None /\ ocr_time s' = 0).
Proof.
  intros Harm. split; [|split; [|split]].
  - intros command s. rewrite wide_execute_command_run.
    split; [reflexivity|]. split; [apply dispatch_result_returns; exact Harm|].
    intros e Havail Hraise. unfold Wide.result_of, Wide.dispatch_result. cbn [fst].
    rewrite Havail, Hraise. reflexivity.
  - intros raw source now s. destruct (rejected (_clean_command raw)) eqn:Hrej.
    + rewrite wide_add_command_rejected by exact Hrej. reflexivity.
    + rewrite (wide_add_command_accepted arm raw source now s Hrej). cbv zeta.
      destruct (match_rule _); [|reflexivity].
      destruct (fired_run_returns arm
                  (record_observation (_clean_command raw) source now s) Harm)
        as (ok & Hres & _).
      exact Hres.
  - intros s. rewrite wide_check_match_run. destruct (match_rule s); [|reflexivity].
    destruct (fired_run_returns arm s Harm) as (ok & Hres & _). exact Hres.
  - intros raw source now s. destruct (rejected (_clean_command raw)) eqn:Hrej.
    + rewrite wide_add_command_rejected by exact Hrej. intros H. exfalso. apply H. reflexivity.
    + rewrite wide_add_command_state by exact Hrej. cbv zeta.
      destruct (match_rule _) eqn:Hrule.
      * intros _.
        destruct (fired_run_returns arm
                    (record_observation (_clean_command raw) source now s) Harm)
          as (ok & _ & ->).
        destruct (fired_slots ok (record_observation (_clean_command raw) source now s))
          as (H1 & H2 & H3 & H4 & _).
        repeat split; assumption.
      * intros H. exfalso. apply H. apply record_observation_matched.
Qed.

Lemma dispatch_faults_are_contained_witness :
  Wide.result_of (Wide._execute_command (arm_of arm_raises) (Some "one") heard_one)
  = Wide.Returns false
  /\ Wide.result_of (Wide.add_command (arm_of arm_raises) "1" "OCR" 103 heard_one)
     = Wide.Returns tt
  /\ voice_command (Wide.state_of (Wide.add_command (arm_of arm_raises) "1" "OCR" 103 heard_one))
     = None
  /\ ocr_command (Wide.state_of (Wide.add_command (arm_of arm_raises) "1" "OCR" 103 heard_one))
     = None.
Proof.
  assert (Harm : Wide.raises_only_exceptions (arm_of arm_raises)).
  { intros command b. cbn. discriminate. }
  destruct (dispatch_faults_are_contained (arm_of arm_raises) Harm)
    as (Hexec & Hadd & _ & Hslots).
  split; [|split].
  - destruct (Hexec (Some "one") heard_one) as (_ & _ & Hfalse).
    apply (Hfalse (PyException "arm not connected")); reflexivity.
  - apply Hadd.
  - destruct (Hslots "1" "OCR" 103 heard_one) as (Hv & _ & Ho & _).
    + vm_compute. discriminate.
    + split; [exact Hv | exact Ho].
Defined.
